(** * The Deep Q-Network agent of [src/dqn/agent.py]

    A shallow embedding of class [Agent] and the properties of its
    learning algorithm: exploration ([act], [decay_eps]), experience
    registration and learning cadence ([step]), the learning step
    ([learn], [mse_loss_prioritized]), target synchronisation
    ([soft_update]), the beta schedule ([get_beta]), persistence
    ([save_model], [load_model]) and diagnostics ([logs]).

    Numbers.  Python floats and torch tensor entries are idealised as
    exact rationals ([Q], compared with [==]): rounding, underflow,
    infinities and NaN are not modelled.  Python exceptions are control
    flow and are modelled, including the [OverflowError] that the float
    power operator raises when its int exponent does not convert to a
    float or its result leaves the binary64 range.

    Collaborators.  [QNetwork], the optimizer, the replay memories, the
    module-level random generator and [prep_state] live outside
    [agent.py]; they are interfaces (type classes) here. *)

From Stdlib Require Import ZArith QArith Qpower Qabs Lia Lqa String Ascii.
From stdpp Require Import base list gmap strings pretty.

Open Scope Z_scope.

(** ** Python and torch primitives *)

Module Py.

(** The exceptions that the agent's code can raise. *)
Inductive exn : Type :=
| TypeError (msg : string)
| ValueError
| ZeroDivisionError
| OverflowError
| FileNotFoundError
| RuntimeError.

Inductive result (A : Type) : Type :=
| Ok (a : A)
| Raise (e : exn).
Arguments Ok {A} a.
Arguments Raise {A} e.

Definition is_ok {A} (r : result A) : bool :=
  match r with Ok _ => true | Raise _ => false end.

(** [max(a, b)]: the first argument is kept unless the second is
    strictly greater. *)
Definition py_max (a b : Q) : Q :=
  match (a ?= b)%Q with Lt => b | _ => a end.

(** [min(a, b)]: the first argument is kept unless the second is
    strictly smaller. *)
Definition py_min (a b : Q) : Q :=
  match (a ?= b)%Q with Gt => b | _ => a end.

(** [a % b] on integers: the sign follows the divisor (as [Z.modulo]
    does), and a zero divisor raises. *)
Definition py_mod (a b : Z) : result Z :=
  if b =? 0 then Raise ZeroDivisionError else Ok (a mod b).

(** Largest magnitude that still rounds to a finite binary64 value is
    just below [2^1024 - 2^970]. *)
Definition float_overflow (v : Q) : bool :=
  Qle_bool (2 ^ 1024 - 2 ^ 970)%Q (Qabs v).

(** A non-zero magnitude below the smallest normal binary64 value
    [2^-1022]: the float result is then a subnormal or [0.0], far (in
    relative terms) from the exact value that this model keeps. *)
Definition float_underflow (v : Q) : bool :=
  negb (Qeq_bool v 0) && negb (Qle_bool (1 / 2 ^ 1022)%Q (Qabs v)).

(** A value in the float range: it neither overflows nor underflows. *)
Definition in_float_range (v : Q) : bool :=
  negb (float_overflow v) && negb (float_underflow v).

(** [x ** i] for a float [x] and an int [i].  The int operand is first
    converted to a float, which raises [OverflowError] when it is too
    large in magnitude; then [x ** 0] is [1.0]; a zero base with a
    negative exponent raises [ZeroDivisionError]; a result out of the
    binary64 range raises [OverflowError].  A result that underflows
    ([float_underflow]) is returned silently by Python; the model
    returns the exact power there. *)
Definition float_pow (x : Q) (i : Z) : result Q :=
  if float_overflow (inject_Z i) then Raise OverflowError
  else if i =? 0 then Ok 1%Q
  else if Qeq_bool x 0 && (i <? 0) then Raise ZeroDivisionError
  else if float_overflow (x ^ i)%Q then Raise OverflowError
  else Ok (x ^ i)%Q.

(** [int(x)]: truncation toward zero. *)
Definition py_int (x : Q) : Z := Z.quot (Qnum x) (Z.pos (Qden x)).

(** Rounding to the nearest integer, ties to even: the rounding of
    the [.2f] format. *)
Definition round_half_even (x : Q) : Z :=
  let n := Qnum x in
  let d := Z.pos (Qden x) in
  let q := n / d in
  let r := n mod d in
  match 2 * r ?= d with
  | Lt => q
  | Gt => q + 1
  | Eq => if Z.even q then q else q + 1
  end.

Definition two_digits (n : Z) : string :=
  if n <? 10 then ("0" ++ pretty n)%string else pretty n.

(** [f"{x:.2f}"] for a finite float [x]. *)
Definition format_2f (x : Q) : string :=
  let n := round_half_even (Qabs x * 100)%Q in
  ((if Qle_bool 0 x then "" else "-")
     ++ pretty (n / 100) ++ "." ++ two_digits (n mod 100))%string.

(** *** One-dimensional tensors

    A batch column (shape [(B, 1)] or [(B,)] in torch) is a list of
    its [B] entries.  Element-wise operations pair the entries by
    position.  Shapes on which torch raises a [RuntimeError]
    (columns of different, non-broadcastable sizes; a reduction over
    an empty dimension; a [gather] index out of range) are outside
    this model: [Memory.sample] returns columns of one common size
    and the estimator returns one value per action. *)

Abbreviation tensor := (list Q).

Definition tadd (x y : tensor) : tensor := zip_with Qplus x y.
Definition tmul (x y : tensor) : tensor := zip_with Qmult x y.
(** [c * x], [c - x] and [x + c] for a scalar [c]. *)
Definition tscale (c : Q) (x : tensor) : tensor := map (Qmult c) x.
Definition trsub (c : Q) (x : tensor) : tensor := map (Qminus c) x.
Definition tadds (x : tensor) (c : Q) : tensor := map (fun v => (v + c)%Q) x.

Definition tsum (x : tensor) : Q := foldr Qplus 0%Q x.

(** [x.mean()] of a non-empty tensor.  (On an empty one torch gives
    NaN; the division by zero of [Q] gives 0.) *)
Definition tmean (x : tensor) : Q :=
  (tsum x / inject_Z (Z.of_nat (length x)))%Q.

(** [x.max(1)[0]] on one row: the largest of the row's entries. *)
Definition row_max (row : tensor) : Q :=
  match row with
  | [] => 0%Q
  | v :: vs => foldl py_max v vs
  end.

(** [x.gather(1, actions)]: entry [actions[i]] of row [i], for
    indices within the rows.  (On any other index torch raises; here
    the entry reads 0.) *)
Definition gather1 (rows : list tensor) (actions : list Z) : tensor :=
  zip_with (fun row a => default 0%Q (row !! Z.to_nat a)) rows actions.

(** [F.mse_loss(x, y, reduce=False)]: the element-wise squared error. *)
Definition squared_errors (x y : tensor) : tensor :=
  zip_with (fun a b => ((a - b) * (a - b))%Q) x y.

(** [F.mse_loss(x, y)]: the mean of the squared errors. *)
Definition mse_loss (x y : tensor) : Q := tmean (squared_errors x y).

(** [np.argmax]: the position of the first largest entry, as
    [(position, value)] scanning from position [i]. *)
Fixpoint argmax_from (i : Z) (best : Z * Q) (row : tensor) : Z :=
  match row with
  | [] => fst best
  | v :: vs =>
      argmax_from (i + 1)
        (match (snd best ?= v)%Q with Lt => (i, v) | _ => best end) vs
  end.

Definition np_argmax (row : tensor) : result Z :=
  match row with
  | [] => Raise ValueError
  | v :: vs => Ok (argmax_from 1 (0, v) vs)
  end.

(** [l[-n:]] for a positive [n]: the last [n] entries, or all of them. *)
Definition last_n {A} (n : nat) (l : list A) : list A :=
  drop (length l - n)%nat l.

End Py.
Export Py.

(** ** State-and-exception monad

    A method call threads the program state and may raise; what it
    mutated before raising stays mutated, as in Python. *)

Definition M (S A : Type) : Type := S -> result A * S.

#[global] Instance M_ret {S} : MRet (M S) := fun A a s => (Ok a, s).

#[global] Instance M_bind {S} : MBind (M S) := fun A B f c s =>
  match c s with
  | (Ok a, s') => f a s'
  | (Raise e, s') => (Raise e, s')
  end.

Definition raise {S A} (e : exn) : M S A := fun s => (Raise e, s).
Definition get {S} : M S S := fun s => (Ok s, s).
Definition modify {S} (f : S -> S) : M S unit := fun s => (Ok tt, f s).
Definition lift {S A} (r : result A) : M S A := fun s => (r, s).

(** ** Data model *)

(** One stored transition: [(state, action, reward, next_state, done)]. *)
Record Transition : Type := mkTransition {
  tr_state : list Q;
  tr_action : Z;
  tr_reward : Q;
  tr_next_state : list Q;
  tr_done : bool
}.

(** What [Memory.sample] returns: a 5-tuple of columns from the uniform
    memory, a 7-tuple (with slot indices and importance weights) from
    the prioritized one. *)
Inductive Experiences : Type :=
| Batch5 (states : list (list Q)) (actions : list Z) (rewards : tensor)
    (next_states : list (list Q)) (dones : tensor)
| Batch7 (states : list (list Q)) (actions : list Z) (rewards : tensor)
    (next_states : list (list Q)) (dones : tensor)
    (index : list Z) (sampling_weights : tensor).

(** ** Collaborators *)

(** [QNetwork]: construction from the architecture and the seed, and
    the forward pass as a function of the parameters and one state.
    The constructor is taken to be a function of its arguments (it
    seeds its own generator); nothing in [agent.py] decides that. *)
Class Estimator : Type := {
  QNetwork : Z -> Z -> list Z -> Z -> list Q;
  forward : list Q -> list Q -> tensor
}.

(** [optim.Adam]: [zero_grad(); loss.backward(); step()] is one update
    of the parameters against the loss seen as a function of them. *)
Class Optimizer (Opt : Type) : Type := {
  Adam : list Q -> Q -> Opt;
  optimizer_step : Opt -> (list Q -> Q) -> list Q -> Opt * list Q
}.

(** The module-level generator of [random]. *)
Class RandomSource (G : Type) : Type := {
  random_seed : Z -> G;
  random_random : G -> Q * G;
  random_randrange : Z -> G -> Z * G
}.

(** [ReplayMemory] and [PrioritizedMemory] of [src.dqn.memory]. *)
Class ReplayStore (G Mem : Type) : Type := {
  ReplayMemory : Z -> Z -> Mem;
  PrioritizedMemory : Z -> Z -> Mem;
  memory_add : Mem -> Transition -> Mem;
  memory_len : Mem -> Z;
  memory_sample : Mem -> option Q -> G -> Experiences * G;
  memory_update_priority : Mem -> list Z -> tensor -> Mem
}.

(** [prep_state], inherited from the base class of [src.base]. *)
Class BaseAgent : Type := {
  prep_state : list Q -> list Q
}.

(** ** The agent *)

(** The constructor's arguments; [__init__] stores them on [self] and no
    method reassigns them. *)
Record HyperParams : Type := mkHyperParams {
  state_size : Z;
  action_size : Z;
  seed : Z;
  nb_hidden : list Z;
  learning_rate : Q;
  memory_size : Z;
  prioritized_memory : bool;
  batch_size : Z;
  gamma : Q;
  tau : Q;
  small_eps : Q;
  update_every : Z;
  epsilon_enabled : bool;
  epsilon_start : Q;
  epsilon_end : Q;
  epsilon_decay : Q
}.

(** The method calls that the properties below observe.  The log is
    ghost state: no computation reads it. *)
Inductive Call : Type :=
| AddCall
| SampleCall (beta : option Q)
| LearnCall
| UpdatePriorityCall (index : list Z) (priorities : tensor)
| OptimizerStepCall
| SoftUpdateCall
| DecayEpsCall.

Definition is_learn (c : Call) : bool :=
  match c with LearnCall => true | _ => false end.
Definition is_soft_update (c : Call) : bool :=
  match c with SoftUpdateCall => true | _ => false end.
Definition is_decay_eps (c : Call) : bool :=
  match c with DecayEpsCall => true | _ => false end.
Definition is_add (c : Call) : bool :=
  match c with AddCall => true | _ => false end.

Definition count_calls (p : Call -> bool) (log : list Call) : nat :=
  length (List.filter p log).

Section Agent.

Context {G Opt Mem : Type}.
Context {RS : RandomSource G} {OP : Optimizer Opt} {MS : ReplayStore G Mem}.
Context {ES : Estimator} {BA : BaseAgent}.

(** The attributes of [self]. *)
Record Agent : Type := mkAgent {
  hp : HyperParams;
  epsilon : Q;
  losses : list Q;
  qnet_local : list Q;
  qnet_target : list Q;
  optimizer : Opt;
  memory : Mem;
  t_step : Z
}.

Definition set_epsilon (v : Q) (a : Agent) : Agent :=
  mkAgent (hp a) v (losses a) (qnet_local a) (qnet_target a)
    (optimizer a) (memory a) (t_step a).
Definition set_losses (v : list Q) (a : Agent) : Agent :=
  mkAgent (hp a) (epsilon a) v (qnet_local a) (qnet_target a)
    (optimizer a) (memory a) (t_step a).
Definition set_qnet_local (v : list Q) (a : Agent) : Agent :=
  mkAgent (hp a) (epsilon a) (losses a) v (qnet_target a)
    (optimizer a) (memory a) (t_step a).
Definition set_qnet_target (v : list Q) (a : Agent) : Agent :=
  mkAgent (hp a) (epsilon a) (losses a) (qnet_local a) v
    (optimizer a) (memory a) (t_step a).
Definition set_optimizer (v : Opt) (a : Agent) : Agent :=
  mkAgent (hp a) (epsilon a) (losses a) (qnet_local a) (qnet_target a)
    v (memory a) (t_step a).
Definition set_memory (v : Mem) (a : Agent) : Agent :=
  mkAgent (hp a) (epsilon a) (losses a) (qnet_local a) (qnet_target a)
    (optimizer a) v (t_step a).
Definition set_t_step (v : Z) (a : Agent) : Agent :=
  mkAgent (hp a) (epsilon a) (losses a) (qnet_local a) (qnet_target a)
    (optimizer a) (memory a) v.

(** The program state: the agent, the module-level generator, the
    files that [torch.save] wrote, and the call log. *)
Record World : Type := mkWorld {
  self : Agent;
  rng : G;
  files : gmap string (list Q);
  calls : list Call
}.

Definition the_self : M World Agent := fun w => (Ok (self w), w).
Definition update_self (f : Agent -> Agent) : M World unit :=
  modify (fun w => mkWorld (f (self w)) (rng w) (files w) (calls w)).
Definition called (c : Call) : M World unit :=
  modify (fun w => mkWorld (self w) (rng w) (files w) (calls w ++ [c])).

(** [Agent.__init__]. *)
Definition init (p : HyperParams) : Agent :=
  let qnet_local :=
    QNetwork (state_size p) (action_size p) (nb_hidden p) (seed p) in
  let qnet_target :=
    QNetwork (state_size p) (action_size p) (nb_hidden p) (seed p) in
  {| hp := p;
     epsilon := if epsilon_enabled p then epsilon_start p else 0%Q;
     losses := [];
     qnet_local := qnet_local;
     qnet_target := qnet_target;
     optimizer := Adam qnet_local (learning_rate p);
     memory :=
       if prioritized_memory p
       then PrioritizedMemory (memory_size p) (batch_size p)
       else ReplayMemory (memory_size p) (batch_size p);
     t_step := 0 |}.

(** Running the constructor: it also reseeds the module-level
    generator ([random.seed(seed)]). *)
Definition construct (p : HyperParams) (fs : gmap string (list Q)) : World :=
  {| self := init p; rng := random_seed (seed p); files := fs; calls := [] |}.

(** *** [logs] *)

Inductive AvgLoss : Type :=
| AvgInt (n : Z)
| AvgInf.

Definition format_avg_loss (v : AvgLoss) : string :=
  match v with
  | AvgInt n => format_2f (inject_Z n)
  | AvgInf => "inf"
  end.

Definition tab : string := String (ascii_of_nat 9) EmptyString.

Definition logs (a : Agent) : string :=
  let avg_loss :=
    if (0 <? length (losses a))%nat
    then AvgInt (py_int (tmean (last_n 100 (losses a))))
    else AvgInf in
  ("Epsilon: " ++ format_2f (epsilon a) ++ tab
     ++ "Avg. MSE Loss: " ++ format_avg_loss avg_loss)%string.

(** *** [decay_eps] and [act] *)

Definition decay_eps : M World unit :=
  called DecayEpsCall ;;
  update_self (fun a =>
    set_epsilon
      (py_max (epsilon_end (hp a)) (epsilon_decay (hp a) * epsilon a)%Q) a).

(** [random.random()]. *)
Definition py_random : M World Q := fun w =>
  let '(u, g) := random_random (rng w) in
  (Ok u, mkWorld (self w) g (files w) (calls w)).

(** [random.randrange(n)]: raises on an empty range. *)
Definition py_randrange (n : Z) : M World Z := fun w =>
  if n <=? 0 then (Raise ValueError, w)
  else
    let '(k, g) := random_randrange n (rng w) in
    (Ok k, mkWorld (self w) g (files w) (calls w)).

Definition act (state : list Q) : M World Z :=
  let state := prep_state state in
  a ← the_self ;
  let action_values := forward (qnet_local a) state in
  explore ←
    (if epsilon_enabled (hp a)
     then u ← py_random ; mret (QMicromega.Qlt_bool u (epsilon a))
     else mret false) ;
  action ←
    (if explore : bool
     then py_randrange (action_size (hp a))
     else lift (np_argmax action_values)) ;
  (if epsilon_enabled (hp a) then decay_eps else mret tt) ;;
  mret action.

(** *** [soft_update] *)

(** The loop over [zip(target.parameters(), local.parameters())]: each
    paired target entry is overwritten in place; [zip] stops at the
    shorter sequence and what is left of the target is not touched. *)
Fixpoint soft_update_params (tau : Q) (target local : list Q) : list Q :=
  match target, local with
  | target_param :: target', local_param :: local' =>
      (tau * local_param + (1 - tau) * target_param)%Q
        :: soft_update_params tau target' local'
  | _, _ => target
  end.

Definition soft_update : M World unit :=
  called SoftUpdateCall ;;
  update_self (fun a =>
    set_qnet_target
      (soft_update_params (tau (hp a)) (qnet_target a) (qnet_local a)) a).

(** *** [get_beta] *)

Definition get_beta (i : Z) (beta_start beta_end beta_growth : Q) : M World Q :=
  a ← the_self ;
  if negb (prioritized_memory (hp a))
  then raise (TypeError "This agent is not using prioritized memory.")
  else
    p ← lift (float_pow beta_growth i) ;
    let beta := py_min (beta_start * p)%Q beta_end in
    mret beta.

(** The defaults of the signature: [beta_start = 0.4], [beta_end = 1],
    [beta_growth = 1.05]. *)
Definition get_beta_default (i : Z) : M World Q :=
  get_beta i (2 # 5) 1 (21 # 20).

(** *** [mse_loss_prioritized] and [learn] *)

Definition mse_loss_prioritized (Q_expected Q_targets : tensor)
    (index : list Z) (sampling_weights : tensor) : M World Q :=
  let losses := tmul (squared_errors Q_expected Q_targets) sampling_weights in
  a ← the_self ;
  let priorities := tadds losses (small_eps (hp a)) in
  called (UpdatePriorityCall index priorities) ;;
  update_self (fun a =>
    set_memory (memory_update_priority (memory a) index priorities) a) ;;
  mret (tmean losses).

(** The columns of a batch after unpacking: the five common ones, and
    the slot indices with the importance weights in the prioritized
    variant. *)
Record Unpacked : Type := mkUnpacked {
  states : list (list Q);
  actions : list Z;
  rewards : tensor;
  next_states : list (list Q);
  dones : tensor;
  extras : option (list Z * tensor)
}.

(** The tuple assignment at the head of [learn]: seven names when
    [prioritized_memory], five otherwise; a tuple of the other length
    does not unpack. *)
Definition unpack (prioritized : bool) (experiences : Experiences)
    : result Unpacked :=
  match prioritized, experiences with
  | true, Batch7 s a r s' d index w => Ok (mkUnpacked s a r s' d (Some (index, w)))
  | false, Batch5 s a r s' d => Ok (mkUnpacked s a r s' d None)
  | _, _ => Raise ValueError
  end.

(** [Q_targets_next] and [Q_targets]: they read the target estimator's
    parameters and the batch, never the local estimator. *)
Definition compute_Q_targets_next (target : list Q) (b : Unpacked) : tensor :=
  map (fun next_state => row_max (forward target next_state)) (next_states b).

Definition compute_Q_targets (gamma : Q) (target : list Q) (b : Unpacked)
    : tensor :=
  tadd (rewards b)
    (tmul (tscale gamma (compute_Q_targets_next target b)) (trsub 1 (dones b))).

(** [Q_expected] as a function of the local estimator's parameters. *)
Definition compute_Q_expected (local : list Q) (b : Unpacked) : tensor :=
  gather1 (map (forward local) (states b)) (actions b).

(** The computation graph behind [loss]: the loss as a function of the
    local parameters [theta], with [Q_targets] a constant ([detach]).
    This is what [loss.backward()] differentiates. *)
Definition loss_graph (b : Unpacked) (Q_targets : tensor) (theta : list Q) : Q :=
  match extras b with
  | Some (_, sampling_weights) =>
      tmean (tmul (squared_errors (compute_Q_expected theta b) Q_targets)
               sampling_weights)
  | None => mse_loss (compute_Q_expected theta b) Q_targets
  end.

(** The shape that [Memory.sample] gives a batch and that the tensor
    operations of [learn] rely on: every column has the same positive
    number of rows, every action indexes a value of its row of
    [Q_expected], and the target estimator returns at least one value
    for every next state. *)
Definition well_shaped (local target : list Q) (b : Unpacked) : bool :=
  let n := length (states b) in
  (0 <? n)%nat
  && (length (actions b) =? n)%nat
  && (length (rewards b) =? n)%nat
  && (length (next_states b) =? n)%nat
  && (length (dones b) =? n)%nat
  && match extras b with
     | Some (index, sampling_weights) =>
         (length index =? n)%nat && (length sampling_weights =? n)%nat
     | None => true
     end
  && forallb
       (fun sa =>
          (0 <=? sa.2) && (sa.2 <? Z.of_nat (length (forward local sa.1))))
       (zip (states b) (actions b))
  && forallb
       (fun next_state =>
          negb (length (forward target next_state) =? 0)%nat)
       (next_states b).

Definition learn (experiences : Experiences) : M World unit :=
  called LearnCall ;;
  a ← the_self ;
  b ← lift (unpack (prioritized_memory (hp a)) experiences) ;
  let Q_targets := compute_Q_targets (gamma (hp a)) (qnet_target a) b in
  let Q_expected := compute_Q_expected (qnet_local a) b in
  loss ←
    (match extras b with
     | Some (index, sampling_weights) =>
         mse_loss_prioritized Q_expected Q_targets index sampling_weights
     | None => mret (mse_loss Q_expected Q_targets)
     end) ;
  update_self (fun a => set_losses (losses a ++ [loss]) a) ;;
  called OptimizerStepCall ;;
  update_self (fun a =>
    let '(o, theta) :=
      optimizer_step (optimizer a) (loss_graph b Q_targets) (qnet_local a) in
    set_qnet_local theta (set_optimizer o a)) ;;
  soft_update.

(** *** [step] *)

Definition memory_sample_call (beta : option Q) : M World Experiences :=
  fun w =>
    let '(experiences, g) := memory_sample (memory (self w)) beta (rng w) in
    (Ok experiences, mkWorld (self w) g (files w) (calls w ++ [SampleCall beta])).

Definition step (state : list Q) (action : Z) (reward : Q)
    (next_state : list Q) (done : bool) (episode : Z) : M World unit :=
  let state := prep_state state in
  let next_state := prep_state next_state in
  called AddCall ;;
  update_self (fun a =>
    set_memory
      (memory_add (memory a) (mkTransition state action reward next_state done))
      a) ;;
  a ← the_self ;
  t ← lift (py_mod (t_step a + 1) (update_every (hp a))) ;
  update_self (set_t_step t) ;;
  if t =? 0 then
    a ← the_self ;
    if batch_size (hp a) <? memory_len (memory a) then
      experiences ←
        (if prioritized_memory (hp a)
         then beta ← get_beta_default episode ; memory_sample_call (Some beta)
         else memory_sample_call None) ;
      learn experiences
    else mret tt
  else mret tt.

(** *** [save_model] and [load_model] *)

(** [torch.save(self.qnet_local.state_dict(), path)], on a path that
    can be written.  The store is keyed by the path as it is spelled;
    two spellings of one file are two keys. *)
Definition save_model (path : string) : M World unit :=
  modify (fun w =>
    mkWorld (self w) (rng w) (<[path := qnet_local (self w)]> (files w))
      (calls w)).

(** [load_state_dict]: an entry count that differs from the
    estimator's is rejected and nothing is copied. *)
Definition load_state_dict (params state_dict : list Q) : result (list Q) :=
  if (length params =? length state_dict)%nat
  then Ok state_dict
  else Raise RuntimeError.

(** [self.qnet_local.load_state_dict(torch.load(path))]. *)
Definition load_model (path : string) : M World unit :=
  w ← get ;
  match files w !! path with
  | None => raise FileNotFoundError
  | Some state_dict =>
      theta ← lift (load_state_dict (qnet_local (self w)) state_dict) ;
      update_self (set_qnet_local theta)
  end.

(** *** Closed forms

    The world that a completed [learn] leaves, written out; and the
    world that [step] leaves before its learning branch. *)

Definition new_priorities (a : Agent) (b : Unpacked) : tensor :=
  let Q_targets := compute_Q_targets (gamma (hp a)) (qnet_target a) b in
  let Q_expected := compute_Q_expected (qnet_local a) b in
  match extras b with
  | Some (_, sampling_weights) =>
      tadds (tmul (squared_errors Q_expected Q_targets) sampling_weights)
        (small_eps (hp a))
  | None => []
  end.

Definition after_learn (b : Unpacked) (w : World) : World :=
  let a := self w in
  let Q_targets := compute_Q_targets (gamma (hp a)) (qnet_target a) b in
  let loss := loss_graph b Q_targets (qnet_local a) in
  let stepped :=
    optimizer_step (optimizer a) (loss_graph b Q_targets) (qnet_local a) in
  {| self :=
       {| hp := hp a;
          epsilon := epsilon a;
          losses := losses a ++ [loss];
          qnet_local := stepped.2;
          qnet_target :=
            soft_update_params (tau (hp a)) (qnet_target a) stepped.2;
          optimizer := stepped.1;
          memory :=
            match extras b with
            | Some (index, _) =>
                memory_update_priority (memory a) index (new_priorities a b)
            | None => memory a
            end;
          t_step := t_step a |};
     rng := rng w;
     files := files w;
     calls :=
       calls w ++ [LearnCall]
         ++ match extras b with
            | Some (index, _) => [UpdatePriorityCall index (new_priorities a b)]
            | None => []
            end
         ++ [OptimizerStepCall; SoftUpdateCall] |}.

Definition after_add (tr : Transition) (w : World) : World :=
  {| self := set_memory (memory_add (memory (self w)) tr) (self w);
     rng := rng w;
     files := files w;
     calls := calls w ++ [AddCall] |}.

Definition with_t_step (t : Z) (w : World) : World :=
  {| self := set_t_step t (self w);
     rng := rng w; files := files w; calls := calls w |}.


Definition sampled (beta : option Q) (w : World) : Experiences * World :=
  let drawn := memory_sample (memory (self w)) beta (rng w) in
  (drawn.1,
   mkWorld (self w) drawn.2 (files w) (calls w ++ [SampleCall beta])).

Definition stored (state : list Q) (action : Z) (reward : Q)
    (next_state : list Q) (done : bool) : Transition :=
  mkTransition (prep_state state) action reward (prep_state next_state) done.

(** The gate of [step]: the counter wrapped and the memory, after the
    add, holds more than [batch_size] transitions. *)
Definition learning_due (t : Z) (w : World) : bool :=
  (t =? 0) && (batch_size (hp (self w)) <? memory_len (memory (self w))).


Definition drew_random (w : World) : Q * World :=
  let drawn := random_random (rng w) in
  (drawn.1, mkWorld (self w) drawn.2 (files w) (calls w)).

Definition drew_randrange (n : Z) (w : World) : Z * World :=
  let drawn := random_randrange n (rng w) in
  (drawn.1, mkWorld (self w) drawn.2 (files w) (calls w)).

Definition decayed (w : World) : World :=
  let a := self w in
  {| self :=
       set_epsilon
         (py_max (epsilon_end (hp a)) (epsilon_decay (hp a) * epsilon a)%Q) a;
     rng := rng w;
     files := files w;
     calls := calls w ++ [DecayEpsCall] |}.

(** The greedy choice of [act]: the arg-max of the local estimator. *)
Definition greedy (a : Agent) (state : list Q) : result Z :=
  np_argmax (forward (qnet_local a) (prep_state state)).

(** *** Call sequences

    What a caller can do with an agent, one call after the other; a
    caller may go on after a call that raised.  [decay_eps] is reached
    through [act] only, and [logs] changes nothing. *)
Inductive Op : Type :=
| ActOp (state : list Q)
| StepOp (state : list Q) (action : Z) (reward : Q) (next_state : list Q)
    (done : bool) (episode : Z)
| LearnOp (experiences : Experiences)
| SoftUpdateOp
| GetBetaOp (i : Z) (beta_start beta_end beta_growth : Q)
| SaveModelOp (path : string)
| LoadModelOp (path : string).

Definition run_op (o : Op) (w : World) : World :=
  match o with
  | ActOp state => (act state w).2
  | StepOp state action reward next_state done episode =>
      (step state action reward next_state done episode w).2
  | LearnOp experiences => (learn experiences w).2
  | SoftUpdateOp => (soft_update w).2
  | GetBetaOp i beta_start beta_end beta_growth =>
      (get_beta i beta_start beta_end beta_growth w).2
  | SaveModelOp path => (save_model path w).2
  | LoadModelOp path => (load_model path w).2
  end.

Definition run (ops : list Op) (w : World) : World :=
  foldl (fun w o => run_op o w) w ops.

Definition is_act (o : Op) : bool :=
  match o with ActOp _ => true | _ => false end.

(** Whether the beta schedule returns at [episode]; it is consulted in
    the prioritized variant only. *)
Definition beta_returns (w : World) (episode : Z) : bool :=
  negb (prioritized_memory (hp (self w))) || is_ok (float_pow (21 # 20) episode).

Definition is_step (o : Op) : bool :=
  match o with StepOp _ _ _ _ _ _ => true | _ => false end.

Definition op_beta_returns (w : World) (o : Op) : bool :=
  match o with
  | StepOp _ _ _ _ _ episode => beta_returns w episode
  | _ => true
  end.

(** *** Counting and repeating calls *)

Definition count_ops (p : Op -> bool) (ops : list Op) : nat :=
  length (List.filter p ops).

Definition is_save (o : Op) : bool :=
  match o with SaveModelOp _ => true | _ => false end.

(** [n] calls of the same method in a row, whatever each returns. *)
Definition repeat_call {A} (n : nat) (c : M World A) (w : World) : World :=
  Nat.iter n (fun w => (c w).2) w.

Definition is_optimizer_step (c : Call) : bool :=
  match c with OptimizerStepCall => true | _ => false end.

Definition is_batch7 (experiences : Experiences) : bool :=
  match experiences with Batch7 _ _ _ _ _ _ _ => true | Batch5 _ _ _ _ _ => false end.

End Agent.

Arguments Agent : clear implicits.
Arguments World : clear implicits.

(** The defaults of the constructor's signature. *)
Definition default_params (state_size action_size : Z) : HyperParams :=
  {| state_size := state_size;
     action_size := action_size;
     seed := 1993;
     nb_hidden := [64; 64];
     learning_rate := 5 # 10000;
     memory_size := 100000;
     prioritized_memory := false;
     batch_size := 64;
     gamma := 99 # 100;
     tau := 1 # 1000;
     small_eps := 1 # 100000;
     update_every := 4;
     epsilon_enabled := true;
     epsilon_start := 1;
     epsilon_end := 1 # 100;
     epsilon_decay := 995 # 1000 |}.

(** ** An executable instance of the collaborators

    Small stand-ins on which the agent runs: a linear-congruential
    generator, a linear estimator with one weight per action, a
    finite-difference descent step, and a ring buffer with a priority
    per slot. *)

Module Fixture.

Definition lcg_next (g : Z) : Z := (g * 1103515245 + 12345) mod 2147483648.

#[export] Instance lcg : RandomSource Z := {|
  random_seed s := s mod 2147483648;
  random_random g := ((inject_Z (g mod 1000) / 1000)%Q, lcg_next g);
  random_randrange n g := (g mod n, lcg_next g)
|}.

#[export] Instance linear : Estimator := {|
  QNetwork _ action_size _ seed :=
    map (fun k => (inject_Z (seed + k) / 1000)%Q) (seqZ 0 action_size);
  forward theta state := map (fun weight => (weight * tsum state)%Q) theta
|}.

#[export] Instance descent : Optimizer Q := {|
  Adam _ lr := lr;
  optimizer_step lr loss theta :=
    (lr,
     imap (fun k v => (v - lr * (loss (<[k := (v + 1)%Q]> theta) - loss theta))%Q)
       theta)
|}.

(** Modelled from the spec: the replay memories of [src.dqn.memory],
    which [agent.py] only imports.  A capacity-bounded store that
    evicts its oldest entry once full, with a priority per slot in the
    prioritized variant and [update_priority] overwriting the
    priorities of the given slots.  The draw of a batch and the
    importance weights are stand-ins: a run of consecutive slots from a
    random offset, and a weight that goes from 1 (no correction, at
    [beta = 0]) to the inverse of the slot's sampling probability
    times the size (full correction, at [beta = 1]). *)
Record RingBuffer : Type := mkRingBuffer {
  capacity : Z;
  sample_size : Z;
  slots : list Transition;
  priority : option (list Q)
}.

Definition ring_add (m : RingBuffer) (tr : Transition) : RingBuffer :=
  let slots' := slots m ++ [tr] in
  let priority' := (fun p => p ++ [1%Q]) <$> priority m in
  if capacity m <? Z.of_nat (length slots')
  then mkRingBuffer (capacity m) (sample_size m) (drop 1 slots')
         (drop 1 <$> priority')
  else mkRingBuffer (capacity m) (sample_size m) slots' priority'.

Definition ring_len (m : RingBuffer) : Z := Z.of_nat (length (slots m)).

Definition done_flag (d : bool) : Q := if d then 1%Q else 0%Q.

Definition ring_sample (m : RingBuffer) (beta : option Q) (g : Z)
    : Experiences * Z :=
  let n := ring_len m in
  let index := map (fun k => (g + k) mod n) (seqZ 0 (sample_size m)) in
  let picked := omap (fun i => slots m !! Z.to_nat i) index in
  let s := map tr_state picked in
  let a := map tr_action picked in
  let r := map tr_reward picked in
  let s' := map tr_next_state picked in
  let d := map (fun tr => done_flag (tr_done tr)) picked in
  match beta, priority m with
  | Some beta, Some p =>
      let total := tsum p in
      let weight i :=
        (1 - beta + beta * (total / (inject_Z n * default 1 (p !! Z.to_nat i))))%Q in
      (Batch7 s a r s' d index (map weight index), lcg_next g)
  | _, _ => (Batch5 s a r s' d, lcg_next g)
  end.

Definition ring_update_priority (m : RingBuffer) (index : list Z)
    (priorities : tensor) : RingBuffer :=
  mkRingBuffer (capacity m) (sample_size m) (slots m)
    ((fun p =>
        foldl (fun p ip => <[Z.to_nat ip.1 := ip.2]> p) p (zip index priorities))
       <$> priority m).

#[export] Instance ring : ReplayStore Z RingBuffer := {|
  ReplayMemory size batch := mkRingBuffer size batch [] None;
  PrioritizedMemory size batch := mkRingBuffer size batch [] (Some []);
  memory_add := ring_add;
  memory_len := ring_len;
  memory_sample := ring_sample;
  memory_update_priority := ring_update_priority
|}.

#[export] Instance identity_prep : BaseAgent := {| prep_state state := state |}.

Definition FAgent : Type := Agent Q RingBuffer.
Definition FWorld : Type := World Z Q RingBuffer.

(** A fresh agent with two state entries and three actions. *)
Definition fresh (p : HyperParams) : FWorld := construct p ∅.

(** The defaults with the memory variant, the batch size, the learning
    cadence and the decay factor chosen. *)
Definition tuned (prioritized : bool) (batch every : Z) (decay : Q)
    : HyperParams :=
  let p := default_params 2 3 in
  mkHyperParams (state_size p) (action_size p) (seed p) (nb_hidden p)
    (learning_rate p) (memory_size p) prioritized batch (gamma p) (tau p)
    (small_eps p) every (epsilon_enabled p) (epsilon_start p) (epsilon_end p)
    decay.

Definition with_memory (m : RingBuffer) (w : FWorld) : FWorld :=
  mkWorld (set_memory m (self w)) (rng w) (files w) (calls w).

Definition with_rng (g : Z) (w : FWorld) : FWorld :=
  mkWorld (self w) g (files w) (calls w).

Definition a_transition : Transition :=
  mkTransition [1%Q; 0%Q] 1 1%Q [0%Q; 1%Q] false.

(** A fresh agent of the uniform variant, with the defaults. *)
Definition uniform_world : FWorld := fresh (default_params 2 3).

(** A fresh agent of the prioritized variant that learns at every step
    from batches of one, with three transitions stored. *)
Definition prioritized_world : FWorld :=
  let w := fresh (tuned true 1 1 (995 # 1000)) in
  with_memory
    (ring_add (ring_add (ring_add (memory (self w)) a_transition) a_transition)
       a_transition)
    w.

(** A uniform batch with one terminal transition of reward 5. *)
Definition terminal_batch : Experiences :=
  Batch5 [[1%Q; 0%Q]] [0] [5%Q] [[0%Q; 1%Q]] [1%Q].

(** A prioritized batch of one sample with importance weight 1/2. *)
Definition weighted_batch : Experiences :=
  Batch7 [[1%Q; 0%Q]] [0] [1%Q] [[0%Q; 1%Q]] [0%Q] [0] [1 # 2].

(** The defaults with exploration switched off. *)
Definition greedy_params : HyperParams :=
  let p := default_params 2 3 in
  mkHyperParams (state_size p) (action_size p) (seed p) (nb_hidden p)
    (learning_rate p) (memory_size p) (prioritized_memory p) (batch_size p)
    (gamma p) (tau p) (small_eps p) (update_every p) false (epsilon_start p)
    (epsilon_end p) (epsilon_decay p).

(** A fresh agent whose first local parameter was moved to 3. *)
Definition moved_world : FWorld :=
  mkWorld (set_qnet_local [3%Q; 0%Q; 0%Q] (self uniform_world))
    (rng uniform_world) (files uniform_world) (calls uniform_world).

(** A fresh agent constructed with [action_size = 0], and the same
    agent with epsilon at 1/2 and a generator whose next draw is
    0.995. *)
Definition no_action_world : FWorld := fresh (default_params 2 0).

Definition settled_no_action_world : FWorld :=
  mkWorld (set_epsilon (1 # 2) (self no_action_world)) 995
    (files no_action_world) (calls no_action_world).

Definition a_step : Op := StepOp [1%Q; 2%Q] 0 1%Q [2%Q; 1%Q] false 7.

End Fixture.

(** ** Facts about the primitives *)

Section Primitives.

Open Scope Q_scope.

Lemma py_max_cases (a b : Q) :
  (a < b /\ py_max a b = b) \/ (b <= a /\ py_max a b = a).
Proof.
  unfold py_max. destruct (Qcompare_spec a b) as [H|H|H].
  - right. split; [rewrite H; apply Qle_refl | reflexivity].
  - left. split; [exact H | reflexivity].
  - right. split; [apply Qlt_le_weak; exact H | reflexivity].
Qed.

Lemma py_max_l (a b : Q) : a <= py_max a b.
Proof.
  destruct (py_max_cases a b) as [[H ->]|[H ->]];
    [apply Qlt_le_weak; exact H | apply Qle_refl].
Qed.

Lemma py_max_r (a b : Q) : b <= py_max a b.
Proof.
  destruct (py_max_cases a b) as [[H ->]|[H ->]];
    [apply Qle_refl | exact H].
Qed.

Lemma py_max_lub (a b c : Q) : a <= c -> b <= c -> py_max a b <= c.
Proof.
  intros Ha Hb.
  destruct (py_max_cases a b) as [[_ ->]|[_ ->]]; assumption.
Qed.

Lemma py_min_cases (a b : Q) :
  (b < a /\ py_min a b = b) \/ (a <= b /\ py_min a b = a).
Proof.
  unfold py_min. destruct (Qcompare_spec a b) as [H|H|H].
  - right. split; [rewrite H; apply Qle_refl | reflexivity].
  - right. split; [apply Qlt_le_weak; exact H | reflexivity].
  - left. split; [exact H | reflexivity].
Qed.

Lemma py_min_r (a b : Q) : py_min a b <= b.
Proof.
  destruct (py_min_cases a b) as [[H ->]|[H ->]];
    [apply Qle_refl | exact H].
Qed.

Lemma py_min_mono (a a' b : Q) : a <= a' -> py_min a b <= py_min a' b.
Proof.
  intros Ha.
  destruct (py_min_cases a b) as [[H ->]|[H ->]];
    destruct (py_min_cases a' b) as [[H' ->]|[H' ->]]; lra.
Qed.

Lemma map_lookup {A B} (f : A -> B) (l : list A) (i : nat) :
  map f l !! i = f <$> (l !! i).
Proof.
  revert i. induction l as [|x l IH]; intros [|i]; simpl; auto.
Qed.

(** [row_max] returns an entry of the row that bounds all of them. *)
Lemma foldl_py_max_spec (vs : list Q) (v : Q) :
  (foldl py_max v vs = v \/ foldl py_max v vs ∈ vs)
  /\ v <= foldl py_max v vs
  /\ (forall x, x ∈ vs -> x <= foldl py_max v vs).
Proof.
  revert v. induction vs as [|y vs IH]; intros v; simpl.
  - split; [left; reflexivity|]. split; [apply Qle_refl|].
    intros x Hx. inversion Hx.
  - destruct (IH (py_max v y)) as (Hin & Hle & Hall).
    split; [|split].
    + destruct Hin as [Heq|Hin].
      * rewrite Heq.
        destruct (py_max_cases v y) as [[_ ->]|[_ ->]];
          [right; left | left; reflexivity].
      * right. right. exact Hin.
    + eapply Qle_trans; [apply py_max_l | exact Hle].
    + intros x Hx. inversion Hx; subst.
      * eapply Qle_trans; [apply py_max_r | exact Hle].
      * apply Hall. assumption.
Qed.

Lemma row_max_spec (row : tensor) :
  row <> [] ->
  row_max row ∈ row /\ (forall x, x ∈ row -> x <= row_max row).
Proof.
  destruct row as [|v vs]; [congruence|]. intros _. simpl.
  destruct (foldl_py_max_spec vs v) as (Hin & Hle & Hall).
  split.
  - destruct Hin as [->|Hin]; [left | right; exact Hin].
  - intros x Hx. inversion Hx; subst; [exact Hle | apply Hall; assumption].
Qed.

Lemma soft_update_params_lookup (tau : Q) (target local : list Q) (i : nat)
    (t l : Q) :
  target !! i = Some t -> local !! i = Some l ->
  soft_update_params tau target local !! i = Some (tau * l + (1 - tau) * t).
Proof.
  revert local i. induction target as [|t0 target IH];
    intros [|l0 local] [|i]; simpl; try discriminate.
  - intros [= ->] [= ->]. reflexivity.
  - apply IH.
Qed.

Lemma soft_update_params_length (tau : Q) (target local : list Q) :
  length (soft_update_params tau target local) = length target.
Proof.
  revert local. induction target as [|t0 target IH]; intros [|l0 local];
    simpl; auto.
Qed.


(** The default growth factor doubles within fifteen episodes, so its
    power leaves the binary64 range from episode 15360 on at the
    latest. *)
Lemma two_le_growth_15 : 1 <= (21 # 20) ^ 15 / 2.
Proof. vm_compute. discriminate. Qed.

Lemma growth_doubles : 2 ^ 1024 <= (21 # 20) ^ 15360.
Proof.
  change 15360%Z with (15 * 1024)%Z.
  rewrite Qpower_mult.
  assert (H : (21 # 20) ^ 15 == 2 * ((21 # 20) ^ 15 / 2)) by field.
  rewrite H, Qmult_power.
  assert (H1 : 1 <= ((21 # 20) ^ 15 / 2) ^ 1024)
    by (apply Qpower_1_le; [apply two_le_growth_15 | discriminate]).
  assert (H2 : 0 <= 2 ^ 1024) by (apply Qpower_0_le; discriminate).
  generalize dependent (((21 # 20) ^ 15 / 2) ^ 1024).
  generalize dependent (2 ^ 1024).
  intros a Ha b Hb. nra.
Qed.

Lemma float_overflow_mono (u v : Q) :
  (Qabs u <= Qabs v)%Q -> float_overflow v = false -> float_overflow u = false.
Proof.
  unfold float_overflow. intros Huv Hv.
  destruct (Qle_bool _ (Qabs u)) eqn:Hu; [|reflexivity].
  apply Qle_bool_iff in Hu.
  assert (H : Qle_bool (2 ^ 1024 - 2 ^ 970) (Qabs v) = true)
    by (apply Qle_bool_iff; eapply Qle_trans; eassumption).
  congruence.
Qed.

(** Every int of magnitude up to [2^1023] converts to a float. *)
Lemma small_exponent_converts (i : Z) :
  (Z.abs i <= 2 ^ 1023)%Z -> float_overflow (inject_Z i) = false.
Proof.
  intros Hi. apply (float_overflow_mono _ (inject_Z (2 ^ 1023))).
  - unfold Qabs, inject_Z, Qle. cbn [Qnum Qden].
    rewrite !Z.mul_1_r. rewrite (Z.abs_eq (2 ^ 1023)); [exact Hi|].
    apply Z.pow_nonneg. discriminate.
  - vm_compute. reflexivity.
Qed.

Lemma exponent_converts_below (i j : Z) :
  (Z.abs j <= Z.abs i)%Z ->
  float_overflow (inject_Z i) = false -> float_overflow (inject_Z j) = false.
Proof.
  intros Hji. apply float_overflow_mono.
  unfold Qabs, inject_Z, Qle. cbn [Qnum Qden].
  rewrite !Z.mul_1_r. exact Hji.
Qed.

(** A magnitude of at least one is in the normal range. *)
Lemma in_normal_range (v : Q) :
  (1 <= Qabs v)%Q -> float_underflow v = false.
Proof.
  intros Hv. unfold float_underflow.
  assert (H : Qle_bool (1 / 2 ^ 1022) (Qabs v) = true).
  { apply Qle_bool_iff. apply Qle_trans with 1%Q; [|exact Hv].
    apply Qle_bool_iff. vm_compute. reflexivity. }
  rewrite H. apply andb_false_r.
Qed.

Lemma float_pow_zero (x : Q) : float_pow x 0 = Ok 1%Q.
Proof.
  unfold float_pow. rewrite small_exponent_converts; [reflexivity|].
  apply Z.pow_nonneg. discriminate.
Qed.

Lemma float_pow_in_range (x : Q) (i : Z) :
  (0 <= i)%Z -> float_overflow (inject_Z i) = false ->
  float_overflow (x ^ i)%Q = false -> float_pow x i = Ok (x ^ i)%Q.
Proof.
  intros Hi Hc Hov. unfold float_pow. rewrite Hc.
  destruct (Z.eqb_spec i 0) as [->|Hne]; [reflexivity|].
  destruct (Z.ltb_spec i 0) as [H|_]; [lia|].
  rewrite andb_false_r, Hov. reflexivity.
Qed.

Lemma default_growth_out_of_range (i : Z) :
  (15360 <= i)%Z -> float_overflow ((21 # 20) ^ i) = true.
Proof.
  intros Hi.
  unfold float_overflow. apply Qle_bool_iff.
  assert (Hpos : 0 <= (21 # 20) ^ i) by (apply Qpower_0_le; discriminate).
  rewrite Qabs_pos by exact Hpos.
  assert (H970 : 0 <= 2 ^ 970) by (apply Qpower_0_le; discriminate).
  assert (Hm : (21 # 20) ^ 15360 <= (21 # 20) ^ i)
    by (apply Qpower_le_compat_l; [exact Hi | discriminate]).
  pose proof growth_doubles as Hd.
  generalize dependent ((21 # 20) ^ i).
  generalize dependent ((21 # 20) ^ 15360).
  generalize dependent (2 ^ 1024).
  generalize dependent (2 ^ 970).
  intros. lra.
Qed.

Lemma default_growth_overflows (i : Z) :
  (15360 <= i)%Z -> float_pow (21 # 20) i = Raise OverflowError.
Proof.
  intros Hi. unfold float_pow.
  destruct (float_overflow (inject_Z i)); [reflexivity|].
  destruct (Z.eqb_spec i 0) as [->|_]; [lia|].
  change (Qeq_bool (21 # 20) 0) with false. cbn [andb].
  rewrite default_growth_out_of_range by exact Hi. reflexivity.
Qed.

(** Where the power of the default growth factor is in range, the
    episode index is small enough to convert. *)
Lemma default_growth_in_range_converts (i : Z) :
  (0 <= i)%Z -> float_overflow ((21 # 20) ^ i) = false ->
  float_overflow (inject_Z i) = false.
Proof.
  intros Hi Hov.
  destruct (Z_lt_le_dec i 15360) as [Hlt|Hge].
  - apply small_exponent_converts.
    rewrite Z.abs_eq by exact Hi.
    apply Z.le_trans with (2 ^ 14)%Z; [|apply Z.pow_le_mono_r]; lia.
  - rewrite default_growth_out_of_range in Hov by exact Hge. discriminate.
Qed.

End Primitives.

(** ** Properties *)

Section AgentProperties.

Context {G Opt Mem : Type}.
Context {RS : RandomSource G} {OP : Optimizer Opt} {MS : ReplayStore G Mem}.
Context {ES : Estimator} {BA : BaseAgent}.

Local Abbreviation World := (World G Opt Mem).
Local Abbreviation Agent := (Agent Opt Mem).

Lemma learn_run (experiences : Experiences) (w : World) :
  learn experiences w =
    match unpack (prioritized_memory (hp (self w))) experiences with
    | Ok b => (Ok tt, after_learn b w)
    | Raise e =>
        (Raise e,
         mkWorld (self w) (rng w) (files w) (calls w ++ [LearnCall]))
    end.
Proof.
  unfold learn, mbind, M_bind, called, modify, the_self, lift; simpl.
  destruct (unpack _ _) as [b|e]; [|reflexivity].
  unfold after_learn, new_priorities, loss_graph, mse_loss_prioritized.
  destruct (extras b) as [[index sw]|] eqn:Hx; simpl;
    unfold mbind, M_bind, called, modify, the_self, update_self, mret, M_ret,
      soft_update; simpl;
    destruct (optimizer_step _ _ _) as [o theta] eqn:Ho; simpl;
    unfold mbind, M_bind, called, modify, update_self; simpl;
    rewrite <- ?app_assoc; reflexivity.
Qed.

Lemma step_run state action reward next_state done episode (w : World) :
  step state action reward next_state done episode w =
    let w1 := after_add (stored state action reward next_state done) w in
    match py_mod (t_step (self w) + 1) (update_every (hp (self w))) with
    | Raise e => (Raise e, w1)
    | Ok t =>
        let w2 := with_t_step t w1 in
        if learning_due t w2 then
          if prioritized_memory (hp (self w)) then
            match float_pow (21 # 20) episode with
            | Raise e => (Raise e, w2)
            | Ok p =>
                let drawn := sampled (Some (py_min ((2 # 5) * p)%Q 1)) w2 in
                learn drawn.1 drawn.2
            end
          else
            let drawn := sampled None w2 in
            learn drawn.1 drawn.2
        else (Ok tt, w2)
    end.
Proof.
  unfold step, stored, mbind, M_bind, called, modify, update_self, the_self,
    lift; simpl.
  destruct (py_mod _ _) as [t|e]; [|reflexivity]. simpl.
  unfold learning_due; simpl.
  destruct (t =? 0); [|reflexivity]. simpl.
  destruct (_ <? _); [|reflexivity].
  destruct (prioritized_memory _) eqn:Hp.
  - unfold get_beta_default, get_beta, mbind, M_bind, the_self, lift; simpl.
    rewrite Hp; simpl.
    destruct (float_pow _ _) as [q|e]; [|reflexivity]. simpl.
    unfold mret, M_ret, memory_sample_call, sampled; simpl.
    destruct (memory_sample _ _ _); reflexivity.
  - unfold memory_sample_call, sampled; simpl.
    destruct (memory_sample _ _ _); reflexivity.
Qed.

Lemma decay_eps_run (w : World) : decay_eps w = (Ok tt, decayed w).
Proof. reflexivity. Qed.

Lemma act_run state (w : World) :
  act state w =
    let a := self w in
    if epsilon_enabled (hp a) then
      let w1 := (drew_random w).2 in
      if QMicromega.Qlt_bool (drew_random w).1 (epsilon a) then
        if action_size (hp a) <=? 0 then (Raise ValueError, w1)
        else
          let picked := drew_randrange (action_size (hp a)) w1 in
          (Ok picked.1, decayed picked.2)
      else
        match greedy a state with
        | Ok action => (Ok action, decayed w1)
        | Raise e => (Raise e, w1)
        end
    else
      match greedy a state with
      | Ok action => (Ok action, w)
      | Raise e => (Raise e, w)
      end.
Proof.
  unfold act, greedy, mbind, M_bind, the_self, lift, drew_random,
    drew_randrange; simpl.
  destruct (epsilon_enabled _) eqn:He; simpl.
  - unfold py_random, mbind, M_bind, mret, M_ret; simpl.
    destruct (random_random _) as [u g]; simpl.
    destruct (QMicromega.Qlt_bool _ _); simpl.
    + unfold py_randrange; simpl.
      destruct (_ <=? 0); [reflexivity|].
      destruct (random_randrange _ _) as [k g']; reflexivity.
    + destruct (np_argmax _); reflexivity.
  - unfold mret, M_ret; simpl.
    destruct (np_argmax _); simpl; [|reflexivity].
    destruct w; reflexivity.
Qed.

(** *** The learning targets *)

Lemma Q_targets_lookup (gamma : Q) (target : list Q) (b : Unpacked)
    (i : nat) (r d : Q) (next_state : list Q) :
  rewards b !! i = Some r ->
  next_states b !! i = Some next_state ->
  dones b !! i = Some d ->
  compute_Q_targets gamma target b !! i
    = Some (r + gamma * row_max (forward target next_state) * (1 - d))%Q.
Proof.
  intros Hr Hs Hd.
  unfold compute_Q_targets, compute_Q_targets_next, tadd, tmul, tscale, trsub.
  rewrite !lookup_zip_with, !map_lookup, Hr, Hs, Hd. reflexivity.
Qed.


(** *** The prioritized loss *)


(** *** Target synchronisation *)

Lemma soft_update_run (w : World) :
  soft_update w =
    (Ok tt,
     {| self :=
          set_qnet_target
            (soft_update_params (tau (hp (self w))) (qnet_target (self w))
               (qnet_local (self w)))
            (self w);
        rng := rng w;
        files := files w;
        calls := calls w ++ [SoftUpdateCall] |}).
Proof. reflexivity. Qed.

Lemma get_beta_run (i : Z) (beta_start beta_end beta_growth : Q) (w : World) :
  get_beta i beta_start beta_end beta_growth w =
    (if prioritized_memory (hp (self w))
     then match float_pow beta_growth i with
          | Ok p => Ok (py_min (beta_start * p)%Q beta_end)
          | Raise e => Raise e
          end
     else Raise (TypeError "This agent is not using prioritized memory."),
     w).
Proof.
  unfold get_beta, mbind, M_bind, the_self, lift, raise; simpl.
  destruct (prioritized_memory _); simpl; [|reflexivity].
  destruct (float_pow _ _); reflexivity.
Qed.

Lemma save_model_run (path : string) (w : World) :
  save_model path w =
    (Ok tt,
     mkWorld (self w) (rng w) (<[path := qnet_local (self w)]> (files w))
       (calls w)).
Proof. reflexivity. Qed.

Lemma load_model_run (path : string) (w : World) :
  load_model path w =
    match files w !! path with
    | None => (Raise FileNotFoundError, w)
    | Some state_dict =>
        if (length (qnet_local (self w)) =? length state_dict)%nat
        then (Ok tt,
              mkWorld (set_qnet_local state_dict (self w)) (rng w) (files w)
                (calls w))
        else (Raise RuntimeError, w)
    end.
Proof.
  unfold load_model, mbind, M_bind, get, raise, lift, load_state_dict; simpl.
  destruct (files w !! path); [|reflexivity].
  destruct (_ =? _)%nat; reflexivity.
Qed.

(** One tactic for the case analyses on a call's closed form. *)
Ltac run_cases :=
  rewrite ?step_run, ?act_run, ?get_beta_run, ?load_model_run,
    ?save_model_run, ?soft_update_run;
  cbv zeta;
  repeat (rewrite ?learn_run; case_match; simpl in *);
  rewrite ?learn_run.

Lemma count_calls_app (p : Call -> bool) (l k : list Call) :
  count_calls p (l ++ k) = (count_calls p l + count_calls p k)%nat.
Proof. unfold count_calls. rewrite List.filter_app, length_app. reflexivity. Qed.

(** *** What each call leaves unchanged *)

Lemma run_op_hp (o : Op) (w : World) : hp (self (run_op o w)) = hp (self w).
Proof. destruct o; unfold run_op; run_cases; reflexivity. Qed.

Lemma run_cons (o : Op) (ops : list Op) (w : World) :
  run (o :: ops) w = run ops (run_op o w).
Proof. reflexivity. Qed.

Lemma run_app (ops1 ops2 : list Op) (w : World) :
  run (ops1 ++ ops2) w = run ops2 (run ops1 w).
Proof. unfold run. apply foldl_app. Qed.

Lemma run_hp (ops : list Op) (w : World) : hp (self (run ops w)) = hp (self w).
Proof.
  revert w. induction ops as [|o ops IH]; intros w; [reflexivity|].
  rewrite run_cons, IH. apply run_op_hp.
Qed.

Lemma run_op_epsilon (o : Op) (w : World) :
  is_act o = false -> epsilon (self (run_op o w)) = epsilon (self w).
Proof.
  destruct o; simpl; try discriminate; intros _; run_cases; reflexivity.
Qed.

Lemma step_keeps_epsilon state action reward next_state done episode (w : World) :
  epsilon (self (step state action reward next_state done episode w).2)
  = epsilon (self w).
Proof.
  apply (run_op_epsilon (StepOp state action reward next_state done episode)).
  reflexivity.
Qed.

Lemma learn_keeps_epsilon experiences (w : World) :
  epsilon (self (learn experiences w).2) = epsilon (self w).
Proof. apply (run_op_epsilon (LearnOp experiences)). reflexivity. Qed.

Lemma act_disabled state (w : World) :
  epsilon_enabled (hp (self w)) = false ->
  (act state w).2 = w /\ (act state w).1 = greedy (self w) state.
Proof.
  intros He. rewrite act_run. cbv zeta. rewrite He.
  destruct (greedy _ _); split; reflexivity.
Qed.

Ltac count_calls_tac :=
  repeat rewrite count_calls_app; unfold count_calls; simpl; try lia.

Lemma run_op_soft_update_in_learn (o : Op) (w : World) :
  o <> SoftUpdateOp ->
  (count_calls is_soft_update (calls (run_op o w))
     + count_calls is_learn (calls w)
   <= count_calls is_learn (calls (run_op o w))
      + count_calls is_soft_update (calls w))%nat
  /\ (count_calls is_learn (calls (run_op o w))
        = count_calls is_learn (calls w) ->
      qnet_target (self (run_op o w)) = qnet_target (self w)).
Proof.
  intros Ho. destruct o; try congruence; unfold run_op; run_cases;
    (split; [count_calls_tac | try reflexivity]);
    count_calls_tac.
Qed.


(** *** Persistence *)

(** C8. [save_model] writes the local estimator's parameters, and
    nothing else, under [path] and changes nothing of the agent;
    [load_model] replaces the local estimator's parameters and leaves
    the target estimator, the memory and every other attribute as they
    were.  So after [save_model] by one agent, [load_model] into an
    agent of the same architecture (here: as many parameters) succeeds,
    gives it the saved parameters, and the two agents make the
    same greedy choice on every state of any batch. *)
Theorem save_load_round_trip (w1 w2 : World) (path : string) :
  files w2 = files (save_model path w1).2 ->
  length (qnet_local (self w2)) = length (qnet_local (self w1)) ->
  let saved := (save_model path w1).2 in
  let loaded := (load_model path w2).2 in
  (save_model path w1).1 = Ok tt
  /\ files saved = <[path := qnet_local (self w1)]> (files w1)
  /\ self saved = self w1
  /\ (forall w : World,
        let w' := (load_model path w).2 in
        qnet_target (self w') = qnet_target (self w)
        /\ memory (self w') = memory (self w)
        /\ set_qnet_local (qnet_local (self w)) (self w') = self w
        /\ files w' = files w /\ rng w' = rng w /\ calls w' = calls w)
  /\ (load_model path w2).1 = Ok tt
  /\ qnet_local (self loaded) = qnet_local (self w1)
  /\ (forall states : list (list Q),
        map (greedy (self loaded)) states = map (greedy (self w1)) states).
Proof.
  intros Hfiles Hlen saved loaded. subst saved loaded.
  rewrite save_model_run in *. simpl in *.
  split; [reflexivity|]. split; [reflexivity|]. split; [reflexivity|].
  split.
  - intros w. rewrite load_model_run.
    destruct (files w !! path) as [sd|]; [destruct (_ =? _)%nat|]; simpl;
      repeat split; destruct w as [[] ? ? ?]; reflexivity.
  - rewrite load_model_run, Hfiles, lookup_insert_eq, Hlen, Nat.eqb_refl.
    simpl. split; [reflexivity|]. split; [reflexivity|].
    intros states. reflexivity.
Qed.

(** *** Exploration *)

Lemma np_argmax_ok (row : tensor) :
  row <> [] -> exists action, np_argmax row = Ok action.
Proof. destruct row; [congruence|]. intros _. eexists. reflexivity. Qed.

(** C10 (amended). In an [act] call with exploration enabled on an
    agent with at least one action (so that the call returns), the draw is
    compared with the epsilon held at entry: below it the action is the
    [randrange] draw, otherwise the arg-max of the local estimator; in
    both branches the call then ends with exactly one [decay_eps],
    which leaves [max(epsilon_end, epsilon_decay * epsilon)]. *)
Theorem act_decays_after_selection (w : World) (state : list Q) :
  epsilon_enabled (hp (self w)) = true ->
  0 < action_size (hp (self w)) ->
  forward (qnet_local (self w)) (prep_state state) <> [] ->
  let a := self w in
  let u := (random_random (rng w)).1 in
  let w' := (act state w).2 in
  exists action,
    (act state w).1 = Ok action
    /\ ((u < epsilon a)%Q ->
        action
        = (random_randrange (action_size (hp a)) (random_random (rng w)).2).1)
    /\ (~ (u < epsilon a)%Q -> greedy a state = Ok action)
    /\ epsilon (self w')
       = py_max (epsilon_end (hp a)) (epsilon_decay (hp a) * epsilon a)%Q
    /\ calls w' = calls w ++ [DecayEpsCall]
    /\ set_epsilon (epsilon a) (self w') = a.
Proof.
  intros He Hn Hrow a u w'. subst a u w'.
  rewrite act_run. cbv zeta. rewrite He. unfold drew_random. simpl.
  destruct (QMicromega.Qlt_bool _ _) eqn:Hu.
  - apply QMicromega.Qlt_bool_iff in Hu.
    destruct (Z.leb_spec (action_size (hp (self w))) 0) as [H|_]; [lia|].
    simpl. eexists. split; [reflexivity|]. split; [reflexivity|].
    split; [intros Hnot; contradiction|].
    split; [reflexivity|]. split; [reflexivity|].
    destruct w as [[] ? ? ?]; reflexivity.
  - assert (Hnu : ~ ((random_random (rng w)).1 < epsilon (self w))%Q).
    { intros H. apply QMicromega.Qlt_bool_iff in H. congruence. }
    destruct (np_argmax_ok _ Hrow) as [action Ha].
    unfold greedy. rewrite Ha. simpl. exists action.
    split; [reflexivity|]. split; [intros H; contradiction|].
    split; [reflexivity|]. split; [reflexivity|]. split; [reflexivity|].
    destruct w as [[] ? ? ?]; reflexivity.
Qed.

Lemma act_epsilon (state : list Q) (w : World) :
  let a := self w in
  let w' := (act state w).2 in
  (epsilon (self w') = epsilon a
   /\ count_calls is_decay_eps (calls w') = count_calls is_decay_eps (calls w)
   /\ (epsilon_enabled (hp a) = true -> is_ok (act state w).1 = false))
  \/ (epsilon_enabled (hp a) = true
      /\ is_ok (act state w).1 = true
      /\ epsilon (self w')
         = py_max (epsilon_end (hp a)) (epsilon_decay (hp a) * epsilon a)%Q
      /\ count_calls is_decay_eps (calls w')
         = S (count_calls is_decay_eps (calls w))).
Proof.
  cbv zeta. rewrite act_run. cbv zeta. unfold drew_random, drew_randrange.
  repeat case_match; simpl;
    solve [ left; repeat split; congruence
          | right; repeat split; count_calls_tac ].
Qed.

Lemma run_op_decay_count (o : Op) (w : World) :
  is_act o = false ->
  count_calls is_decay_eps (calls (run_op o w))
  = count_calls is_decay_eps (calls w).
Proof.
  destruct o; simpl; try discriminate; intros _; run_cases; count_calls_tac.
Qed.

Lemma decay_le (e_end e_decay e : Q) :
  (0 <= e_end -> e_decay <= 1 -> e_end <= e ->
   e_end <= py_max e_end (e_decay * e) /\ py_max e_end (e_decay * e) <= e)%Q.
Proof.
  intros H0 H1 He. split; [apply py_max_l|].
  apply py_max_lub; [exact He|]. nra.
Qed.

Lemma run_op_epsilon_le (o : Op) (w : World) :
  (0 <= epsilon_end (hp (self w)))%Q ->
  (epsilon_decay (hp (self w)) <= 1)%Q ->
  (epsilon_end (hp (self w)) <= epsilon (self w))%Q ->
  (epsilon_end (hp (self w)) <= epsilon (self (run_op o w))
   /\ epsilon (self (run_op o w)) <= epsilon (self w))%Q.
Proof.
  intros H0 H1 He.
  destruct (is_act o) eqn:Ho.
  - destruct o; try discriminate. simpl.
    destruct (act_epsilon state w) as [(-> & _)|(_ & _ & -> & _)].
    + split; [exact He | apply Qle_refl].
    + apply decay_le; assumption.
  - rewrite run_op_epsilon by exact Ho. split; [exact He | apply Qle_refl].
Qed.

Lemma run_epsilon_le (ops : list Op) (w : World) :
  (0 <= epsilon_end (hp (self w)))%Q ->
  (epsilon_decay (hp (self w)) <= 1)%Q ->
  (epsilon_end (hp (self w)) <= epsilon (self w))%Q ->
  (epsilon_end (hp (self w)) <= epsilon (self (run ops w))
   /\ epsilon (self (run ops w)) <= epsilon (self w))%Q.
Proof.
  revert w. induction ops as [|o ops IH]; intros w H0 H1 He.
  - split; [exact He | apply Qle_refl].
  - rewrite run_cons.
    destruct (run_op_epsilon_le o w H0 H1 He) as [Hlo Hhi].
    destruct (IH (run_op o w)) as [Hlo' Hhi']; rewrite ?run_op_hp; auto.
    rewrite run_op_hp in Hlo'. split; [exact Hlo'|].
    eapply Qle_trans; eassumption.
Qed.

Lemma run_disabled (ops : list Op) (w : World) :
  epsilon_enabled (hp (self w)) = false ->
  epsilon (self (run ops w)) = epsilon (self w)
  /\ count_calls is_decay_eps (calls (run ops w))
     = count_calls is_decay_eps (calls w).
Proof.
  revert w. induction ops as [|o ops IH]; intros w He; [split; reflexivity|].
  rewrite run_cons.
  destruct (IH (run_op o w)) as [-> ->]; [rewrite run_op_hp; exact He|].
  destruct (is_act o) eqn:Ho.
  - destruct o; try discriminate. simpl.
    destruct (act_disabled state w He) as [-> _]. split; reflexivity.
  - split; [apply run_op_epsilon | apply run_op_decay_count]; exact Ho.
Qed.

Lemma act_ok (state : list Q) (w : World) :
  0 < action_size (hp (self w)) ->
  forward (qnet_local (self w)) (prep_state state) <> [] ->
  is_ok (act state w).1 = true.
Proof.
  intros Hn Hrow. rewrite act_run. cbv zeta.
  destruct (np_argmax_ok _ Hrow) as [action Ha]. unfold greedy. rewrite Ha.
  destruct (Z.leb_spec (action_size (hp (self w))) 0) as [H|_]; [lia|].
  repeat case_match; reflexivity.
Qed.

(** C5 (amended). With exploration enabled, every [act] call (on an
    agent with at least one action) applies
    [epsilon <- max(epsilon_end, epsilon_decay * epsilon)] exactly once.
    Provided [0 <= epsilon_end <= epsilon_start] and
    [epsilon_decay <= 1], over any sequence of calls from construction
    epsilon is non-increasing and stays between [epsilon_end] and
    [epsilon_start].  [step] and [learn] never change epsilon.  With
    exploration disabled, epsilon is 0 from construction onward and no
    call decays it. *)
Theorem epsilon_schedule (p : HyperParams) (fs : gmap string (list Q)) :
  let w0 : World := construct p fs in
  (forall (w : World) (state : list Q),
     epsilon_enabled (hp (self w)) = true ->
     0 < action_size (hp (self w)) ->
     forward (qnet_local (self w)) (prep_state state) <> [] ->
     epsilon (self (act state w).2)
     = py_max (epsilon_end (hp (self w)))
         (epsilon_decay (hp (self w)) * epsilon (self w))%Q
     /\ count_calls is_decay_eps (calls (act state w).2)
        = S (count_calls is_decay_eps (calls w)))
  /\ (epsilon_enabled p = true ->
      (0 <= epsilon_end p)%Q ->
      (epsilon_end p <= epsilon_start p)%Q ->
      (epsilon_decay p <= 1)%Q ->
      forall ops1 ops2 : list Op,
        (epsilon (self (run (ops1 ++ ops2) w0)) <= epsilon (self (run ops1 w0))
         /\ epsilon_end p <= epsilon (self (run ops1 w0))
         /\ epsilon (self (run ops1 w0)) <= epsilon_start p)%Q)
  /\ (forall (w : World) state action reward next_state done episode,
        epsilon (self (step state action reward next_state done episode w).2)
        = epsilon (self w))
  /\ (forall (w : World) experiences,
        epsilon (self (learn experiences w).2) = epsilon (self w))
  /\ (epsilon_enabled p = false ->
      epsilon (self w0) = 0%Q
      /\ forall ops : list Op,
           epsilon (self (run ops w0)) = 0%Q
           /\ count_calls is_decay_eps (calls (run ops w0)) = 0%nat).
Proof.
  intros w0. split; [|split; [|split; [|split]]].
  - intros w state He Hn Hrow.
    pose proof (act_ok state w Hn Hrow) as Hok.
    destruct (act_epsilon state w) as [(_ & _ & Hno)|(_ & _ & H1 & H2)].
    + rewrite (Hno He) in Hok. discriminate.
    + split; assumption.
  - intros He H0 Hes Hd ops1 ops2.
    assert (Hw0 : epsilon (self w0) = epsilon_start p).
    { unfold w0, construct, init. simpl. rewrite He. reflexivity. }
    assert (Hhp : hp (self w0) = p) by reflexivity.
    assert (Hinv : (epsilon_end (hp (self w0)) <= epsilon (self w0))%Q)
      by (rewrite Hw0, Hhp; exact Hes).
    rewrite <- Hhp in H0, Hd.
    destruct (run_epsilon_le ops1 w0 H0 Hd Hinv) as [Hlo Hhi].
    rewrite Hw0 in Hhi. rewrite Hhp in Hlo.
    split; [|split; assumption].
    rewrite run_app.
    apply (run_epsilon_le ops2 (run ops1 w0)); rewrite run_hp; try assumption.
  - intros. apply step_keeps_epsilon.
  - intros. apply learn_keeps_epsilon.
  - intros He.
    assert (Hw0 : epsilon (self w0) = 0%Q).
    { unfold w0, construct, init. simpl. rewrite He. reflexivity. }
    split; [exact Hw0|]. intros ops.
    destruct (run_disabled ops w0 He) as [-> ->]. split; [exact Hw0|].
    reflexivity.
Qed.

(** *** The beta schedule *)

Lemma get_beta_typeerror (i : Z) (beta_start beta_end beta_growth : Q)
    (w : World) :
  prioritized_memory (hp (self w)) = false ->
  get_beta i beta_start beta_end beta_growth w
  = (Raise (TypeError "This agent is not using prioritized memory."), w).
Proof. intros Hp. rewrite get_beta_run, Hp. reflexivity. Qed.

Lemma get_beta_overflows (i : Z) (beta_start beta_end beta_growth : Q)
    (w : World) :
  prioritized_memory (hp (self w)) = true ->
  float_pow beta_growth i = Raise OverflowError ->
  get_beta i beta_start beta_end beta_growth w = (Raise OverflowError, w).
Proof. intros Hp Hov. rewrite get_beta_run, Hp, Hov. reflexivity. Qed.


(** *** Learning cadence *)


Lemma learn_call_count (experiences : Experiences) (w : World) :
  exists seg,
    calls (learn experiences w).2 = calls w ++ LearnCall :: seg
    /\ count_calls is_learn seg = 0%nat
    /\ count_calls is_add seg = 0%nat.
Proof.
  rewrite learn_run. destruct (unpack _ _) as [b|e]; simpl.
  - eexists. split; [reflexivity|].
    destruct (extras b) as [[? ?]|]; split; reflexivity.
  - exists []. repeat split.
Qed.

(** Every [step] call first adds the transition; then the counter
    advances modulo [update_every]; [learn] is called once when the
    gate [learning_due] holds and the beta schedule returns, and not
    at all otherwise. *)
Lemma step_cadence state action reward next_state done episode (w : World) :
  let w1 := after_add (stored state action reward next_state done) w in
  let w' := (step state action reward next_state done episode w).2 in
  exists seg,
    calls w' = calls w ++ AddCall :: seg
    /\ count_calls is_add seg = 0%nat
    /\ match py_mod (t_step (self w) + 1) (update_every (hp (self w))) with
       | Raise _ => w' = w1
       | Ok t =>
           t_step (self w') = t
           /\ count_calls is_learn seg
              = if learning_due t (with_t_step t w1) && beta_returns w episode
                then 1%nat else 0%nat
       end.
Proof.
  cbv zeta. rewrite step_run. cbv zeta.
  destruct (py_mod _ _) as [t|e]; simpl.
  2:{ exists []. repeat split. }
  unfold beta_returns.
  destruct (learning_due _ _) eqn:Hdue; simpl.
  2:{ exists []. repeat split. }
  assert (Hlearn : forall ex beta (wl : World),
    calls wl = (calls w ++ [AddCall]) ++ [SampleCall beta] ->
    t_step (self wl) = t ->
    exists seg,
      calls (learn ex wl).2 = calls w ++ AddCall :: seg
      /\ count_calls is_add seg = 0%nat
      /\ t_step (self (learn ex wl).2) = t
      /\ count_calls is_learn seg = 1%nat).
  { intros ex beta wl Hcw Htw.
    destruct (learn_call_count ex wl) as (seg & Hc & Hl & Ha).
    exists (SampleCall beta :: LearnCall :: seg).
    split; [rewrite Hc, Hcw, <- !app_assoc; reflexivity|].
    split; [exact Ha|].
    split; [rewrite learn_run; case_match; exact Htw|].
    change (S (count_calls is_learn seg) = 1%nat). rewrite Hl. reflexivity. }
  destruct (prioritized_memory _) eqn:Hp; simpl.
  - destruct (float_pow _ _) as [p|e] eqn:Hpow; simpl.
    + eapply Hlearn; reflexivity.
    + exists []. repeat split.
  - eapply Hlearn; reflexivity.
Qed.

Lemma step_without_learning state action reward next_state done episode
    (w : World) (t : Z) :
  py_mod (t_step (self w) + 1) (update_every (hp (self w))) = Ok t ->
  learning_due t
    (with_t_step t (after_add (stored state action reward next_state done) w))
  = false ->
  step state action reward next_state done episode w
  = (Ok tt,
     with_t_step t (after_add (stored state action reward next_state done) w)).
Proof. intros Ht Hdue. rewrite step_run. cbv zeta. rewrite Ht, Hdue. reflexivity. Qed.



(** X22. The scenario of the cadence: [update_every = 4], [batch_size = 64],
    a fresh counter and 100 stored transitions in a memory whose [add]
    never shrinks it.  Of four consecutive [step] calls the first three
    call [learn] not at all and the fourth calls it once (in the
    prioritized variant: provided the beta schedule returns). *)
Lemma cadence_scenario (w : World) (o1 o2 o3 o4 : Op) :
  is_step o1 = true -> is_step o2 = true ->
  is_step o3 = true -> is_step o4 = true ->
  update_every (hp (self w)) = 4 ->
  batch_size (hp (self w)) = 64 ->
  t_step (self w) = 0 ->
  memory_len (memory (self w)) = 100 ->
  (forall m tr, memory_len m <= memory_len (memory_add m tr)) ->
  op_beta_returns w o4 = true ->
  let n := count_calls is_learn (calls w) in
  count_calls is_learn (calls (run [o1] w)) = n
  /\ count_calls is_learn (calls (run [o1; o2] w)) = n
  /\ count_calls is_learn (calls (run [o1; o2; o3] w)) = n
  /\ count_calls is_learn (calls (run [o1; o2; o3; o4] w)) = S n.
Proof.
  intros H1 H2 H3 H4 Hue Hbs Ht Hlen Hadd Hbeta n.
  destruct o1 as [|s1 a1 r1 n1 d1 e1| | | | |]; try discriminate.
  destruct o2 as [|s2 a2 r2 n2 d2 e2| | | | |]; try discriminate.
  destruct o3 as [|s3 a3 r3 n3 d3 e3| | | | |]; try discriminate.
  destruct o4 as [|s4 a4 r4 n4 d4 e4| | | | |]; try discriminate.
  unfold run; simpl foldl.
  rewrite (step_without_learning s1 a1 r1 n1 d1 e1 w 1);
    [|rewrite Hue, Ht; reflexivity | reflexivity].
  cbn [snd].
  set (w1 := with_t_step 1 (after_add (stored s1 a1 r1 n1 d1) w)).
  rewrite (step_without_learning s2 a2 r2 n2 d2 e2 w1 2);
    [|simpl; rewrite Hue; reflexivity | reflexivity].
  cbn [snd].
  set (w2 := with_t_step 2 (after_add (stored s2 a2 r2 n2 d2) w1)).
  rewrite (step_without_learning s3 a3 r3 n3 d3 e3 w2 3);
    [|simpl; rewrite Hue; reflexivity | reflexivity].
  cbn [snd].
  set (w3 := with_t_step 3 (after_add (stored s3 a3 r3 n3 d3) w2)).
  assert (Hn : forall tr (x : World),
             count_calls is_learn (calls (with_t_step 0 (after_add tr x)))
             = count_calls is_learn (calls x)).
  { intros tr x. simpl. rewrite count_calls_app. unfold count_calls at 2.
    simpl. lia. }
  assert (Hm : forall t tr (x : World),
             memory_len (memory (self x))
             <= memory_len (memory (self (with_t_step t (after_add tr x))))).
  { intros t tr x. simpl. apply Hadd. }
  assert (Hc : forall t tr (x : World),
             count_calls is_learn (calls (with_t_step t (after_add tr x)))
             = count_calls is_learn (calls x)).
  { intros t tr x. simpl. rewrite count_calls_app. unfold count_calls at 2.
    simpl. lia. }
  assert (Hc1 : count_calls is_learn (calls w1) = n) by apply Hc.
  assert (Hc2 : count_calls is_learn (calls w2) = n)
    by (unfold w2; rewrite Hc; exact Hc1).
  assert (Hc3 : count_calls is_learn (calls w3) = n)
    by (unfold w3; rewrite Hc; exact Hc2).
  split; [exact Hc1|]. split; [exact Hc2|]. split; [exact Hc3|].
  destruct (step_cadence s4 a4 r4 n4 d4 e4 w3) as (seg & Hcalls & _ & Hmod).
  assert (Hpm : py_mod (t_step (self w3) + 1) (update_every (hp (self w3)))
                = Ok 0) by (simpl; rewrite Hue; reflexivity).
  rewrite Hpm in Hmod. destruct Hmod as [_ Hcount].
  assert (Hdue : learning_due 0
                   (with_t_step 0 (after_add (stored s4 a4 r4 n4 d4) w3))
                 = true).
  { unfold learning_due. simpl. rewrite Hbs.
    apply Z.ltb_lt.
    pose proof (Hm 1 (stored s1 a1 r1 n1 d1) w) as M1.
    pose proof (Hm 2 (stored s2 a2 r2 n2 d2) w1) as M2.
    pose proof (Hm 3 (stored s3 a3 r3 n3 d3) w2) as M3.
    pose proof (Hm 0 (stored s4 a4 r4 n4 d4) w3) as M4.
    unfold w3, w2, w1 in *. simpl in *. lia. }
  rewrite Hdue in Hcount.
  assert (Hb : beta_returns w3 e4 = true) by exact Hbeta.
  rewrite Hb in Hcount. simpl in Hcount.
  rewrite Hcalls, count_calls_app, Hc3.
  change (count_calls is_learn (AddCall :: seg))
    with (count_calls is_learn seg).
  rewrite Hcount. lia.
Qed.

(** In the prioritized variant a [step] whose gate holds consults the
    beta schedule before sampling; when the power overflows, the call
    raises with the transition stored and the counter advanced, and
    [learn] is not reached. *)
Lemma step_overflow state action reward next_state done episode (w : World)
    (t : Z) :
  prioritized_memory (hp (self w)) = true ->
  py_mod (t_step (self w) + 1) (update_every (hp (self w))) = Ok t ->
  learning_due t
    (with_t_step t (after_add (stored state action reward next_state done) w))
  = true ->
  float_pow (21 # 20) episode = Raise OverflowError ->
  step state action reward next_state done episode w
  = (Raise OverflowError,
     with_t_step t (after_add (stored state action reward next_state done) w)).
Proof.
  intros Hp Ht Hdue Hov. rewrite step_run. cbv zeta.
  rewrite Ht, Hdue, Hp, Hov. reflexivity.
Qed.

End AgentProperties.

(** ** The agent on concrete inputs *)

Import Fixture.


Lemma step_at_episode_20000 :
  step [1%Q; 2%Q] 0 1%Q [2%Q; 1%Q] false 20000 prioritized_world
  = (Raise OverflowError,
     with_t_step 0
       (after_add (stored [1%Q; 2%Q] 0 1%Q [2%Q; 1%Q] false) prioritized_world)).
Proof.
  apply step_overflow;
    [reflexivity | reflexivity | reflexivity
     | apply default_growth_overflows; lia].
Qed.

(** C2, at the failing input.  A prioritized agent with
    [update_every = 1], [batch_size = 1] and three stored transitions
    receives a [step] at episode 20000: the counter wraps to zero and
    the memory holds more than [batch_size] transitions, yet the call
    raises [OverflowError] in the beta schedule and [learn] is not
    called. *)
Theorem step_overflow_skips_learn :
  let r := step [1%Q; 2%Q] 0 1%Q [2%Q; 1%Q] false 20000 prioritized_world in
  r.1 = Raise OverflowError
  /\ t_step (self r.2) = 0
  /\ batch_size (hp (self r.2)) < memory_len (memory (self r.2))
  /\ count_calls is_add (calls r.2) = 1%nat
  /\ count_calls is_learn (calls r.2) = 0%nat.
Proof.
  cbv zeta. rewrite step_at_episode_20000.
  split; [reflexivity|]. split; [reflexivity|]. split; [reflexivity|].
  split; reflexivity.
Qed.

(** The same four-step scenario as in the claim, run on the uniform
    variant: one [learn] call, on the fourth [step]. *)
Lemma cadence_scenario_witness :
  let w :=
    with_memory (mkRingBuffer 100000 64 (replicate 100 a_transition) None)
      uniform_world in
  let o := StepOp [1%Q; 2%Q] 0 1%Q [2%Q; 1%Q] false 7 in
  count_calls is_learn (calls (run [o; o; o] w)) = 0%nat
  /\ count_calls is_learn (calls (run [o; o; o; o] w)) = 1%nat.
Proof.
  intros w o.
  assert (Hadd : forall m tr, memory_len m <= memory_len (memory_add m tr)).
  { intros m tr. simpl. unfold ring_len, ring_add.
    destruct (_ <? _); simpl; rewrite ?length_drop, length_app; simpl; lia. }
  assert (Hlen : memory_len (memory (self w)) = 100) by reflexivity.
  destruct (cadence_scenario w o o o o eq_refl eq_refl eq_refl eq_refl
              eq_refl eq_refl eq_refl Hlen Hadd eq_refl)
    as (_ & _ & H3 & H4).
  split; [exact H3 | exact H4].
Defined.



(** C5, counterexample.  Every [epsilon_decay] is accepted; with
    [epsilon_decay = 2] one [act] call raises epsilon from 1 to 2. *)
Lemma epsilon_increases_with_decay_two :
  let w := fresh (tuned false 64 4 2) in
  epsilon_enabled (hp (self w)) = true
  /\ is_ok (act [1%Q; 2%Q] w).1 = true
  /\ (epsilon (self w) == 1)%Q
  /\ (epsilon (self (run [ActOp [1%Q; 2%Q]] w)) == 2)%Q
  /\ ~ (epsilon (self (run [ActOp [1%Q; 2%Q]] w)) <= epsilon (self w))%Q.
Proof.
  cbv zeta. repeat split; try reflexivity.
  vm_compute. intros H. apply H. reflexivity.
Qed.



(** C7, at the failing input.  On a prioritized agent the default
    schedule at episode 20000 raises [OverflowError] instead of
    returning the capped value 1. *)
Theorem get_beta_overflow_on_prioritized :
  prioritized_memory (hp (self prioritized_world)) = true
  /\ get_beta_default 20000 prioritized_world
     = (Raise OverflowError, prioritized_world).
Proof.
  split; [reflexivity|].
  unfold get_beta_default.
  apply get_beta_overflows; [reflexivity|].
  apply default_growth_overflows. lia.
Qed.

(** C8, on an agent that has learned once: its parameters go through
    the file into a fresh agent, which then makes the same greedy
    choices. *)
Lemma save_load_round_trip_witness :
  let w1 := (learn terminal_batch uniform_world).2 in
  let w2 : FWorld :=
    mkWorld (init (default_params 2 3)) (rng w1)
      (files (save_model "model.pt" w1).2) [] in
  files w2 = files (save_model "model.pt" w1).2
  /\ length (qnet_local (self w2)) = length (qnet_local (self w1))
  /\ qnet_local (self w2) <> qnet_local (self w1)
  /\ (load_model "model.pt" w2).1 = Ok tt
  /\ map (greedy (self (load_model "model.pt" w2).2)) [[1%Q; 2%Q]; [(-1 # 1)%Q; 0%Q]]
     = map (greedy (self w1)) [[1%Q; 2%Q]; [(-1 # 1)%Q; 0%Q]].
Proof.
  intros w1 w2.
  assert (Hlen : length (qnet_local (self w2)) = length (qnet_local (self w1)))
    by (vm_compute; reflexivity).
  destruct (save_load_round_trip w1 w2 "model.pt" eq_refl Hlen)
    as (_ & _ & _ & _ & Hok & _ & Hgreedy).
  split; [reflexivity|]. split; [exact Hlen|].
  split; [vm_compute; intros H; discriminate H|].
  split; [exact Hok | apply Hgreedy].
Defined.

(** C9, at the failing input.  With one recorded loss of 0.5 the mean
    is 0.5, which the format would print as [0.50]; [logs] prints its
    integer part, [0.00]. *)
Theorem logs_truncates_mean :
  let a := set_losses [1 # 2] (self uniform_world) in
  logs a = ("Epsilon: 1.00" ++ tab ++ "Avg. MSE Loss: 0.00")%string
  /\ format_2f (tmean (last_n 100 (losses a))) = "0.50"%string
  /\ logs (self uniform_world)
     = ("Epsilon: 1.00" ++ tab ++ "Avg. MSE Loss: inf")%string.
Proof. cbv zeta. repeat split; vm_compute; reflexivity. Qed.

(** C10, counterexample.  On an agent constructed with
    [action_size = 0] an enabled [act] call raises [ValueError] in
    either branch ([randrange] on an empty range, [np.argmax] of an
    empty row) before it reaches [decay_eps]: epsilon is not decayed
    and no [decay_eps] call is made. *)
Lemma act_raises_without_decay :
  let decayed (w : FWorld) :=
    py_max (epsilon_end (hp (self w)))
      (epsilon_decay (hp (self w)) * epsilon (self w))%Q in
  let w1 := no_action_world in
  let w2 := settled_no_action_world in
  epsilon_enabled (hp (self w1)) = true
  /\ ((random_random (rng w1)).1 < epsilon (self w1))%Q
  /\ (act [1%Q; 2%Q] w1).1 = Raise ValueError
  /\ epsilon (self (act [1%Q; 2%Q] w1).2) = epsilon (self w1)
  /\ ~ (epsilon (self (act [1%Q; 2%Q] w1).2) == decayed w1)%Q
  /\ calls (act [1%Q; 2%Q] w1).2 = calls w1
  /\ epsilon_enabled (hp (self w2)) = true
  /\ ~ ((random_random (rng w2)).1 < epsilon (self w2))%Q
  /\ (act [1%Q; 2%Q] w2).1 = Raise ValueError
  /\ epsilon (self (act [1%Q; 2%Q] w2).2) = epsilon (self w2)
  /\ ~ (epsilon (self (act [1%Q; 2%Q] w2).2) == decayed w2)%Q
  /\ calls (act [1%Q; 2%Q] w2).2 = calls w2.
Proof.
  cbv zeta.
  repeat split; try reflexivity; vm_compute; intros H; discriminate H.
Qed.

(** C10, with the draw 0.995 and the entry epsilon 1: the draw is
    below the entry epsilon, so the action is the random one, although
    the draw is not below the decayed epsilon 0.995. *)
Lemma act_decays_after_selection_witness :
  let w := with_rng 995 uniform_world in
  epsilon_enabled (hp (self w)) = true
  /\ 0 < action_size (hp (self w))
  /\ forward (qnet_local (self w)) (prep_state [1%Q; 2%Q]) <> []
  /\ ((random_random (rng w)).1 < epsilon (self w))%Q
  /\ ~ ((random_random (rng w)).1 < epsilon (self (act [1%Q; 2%Q] w).2))%Q
  /\ exists action,
       (act [1%Q; 2%Q] w).1 = Ok action
       /\ action
          = (random_randrange (action_size (hp (self w)))
               (random_random (rng w)).2).1
       /\ calls (act [1%Q; 2%Q] w).2 = calls w ++ [DecayEpsCall].
Proof.
  intros w.
  assert (Hn : 0 < action_size (hp (self w))) by reflexivity.
  assert (Hrow : forward (qnet_local (self w)) (prep_state [1%Q; 2%Q]) <> [])
    by (vm_compute; intros H; discriminate H).
  assert (Hu : ((random_random (rng w)).1 < epsilon (self w))%Q)
    by reflexivity.
  destruct (act_decays_after_selection w [1%Q; 2%Q] eq_refl Hn Hrow)
    as (action & Hok & Hrandom & _ & _ & Hcalls & _).
  split; [reflexivity|]. split; [exact Hn|]. split; [exact Hrow|].
  split; [exact Hu|].
  split; [vm_compute; intros H; discriminate H|].
  exists action. split; [exact Hok|]. split; [apply Hrandom; exact Hu|].
  exact Hcalls.
Defined.


(** C5, with the defaults [epsilon_start = 1], [epsilon_end = 0.01] and
    [epsilon_decay = 0.995]: after an [act] call, a further [act] and a
    [step] do not raise epsilon, and it stays within its bounds. *)
Lemma epsilon_schedule_witness :
  let p := default_params 2 3 in
  let w0 : FWorld := construct p ∅ in
  let ops1 := [ActOp [1%Q; 2%Q]] in
  let ops2 := [ActOp [2%Q; 1%Q]; StepOp [1%Q; 2%Q] 0 1%Q [2%Q; 1%Q] false 0] in
  epsilon_enabled p = true
  /\ (0 <= epsilon_end p)%Q
  /\ (epsilon_end p <= epsilon_start p)%Q
  /\ (epsilon_decay p <= 1)%Q
  /\ (epsilon (self (run (ops1 ++ ops2) w0)) <= epsilon (self (run ops1 w0)))%Q
  /\ (epsilon_end p <= epsilon (self (run ops1 w0)))%Q
  /\ (epsilon (self (run ops1 w0)) <= epsilon_start p)%Q.
Proof.
  intros p w0 ops1 ops2.
  assert (H0 : (0 <= epsilon_end p)%Q) by (vm_compute; discriminate).
  assert (H1 : (epsilon_end p <= epsilon_start p)%Q)
    by (vm_compute; discriminate).
  assert (H2 : (epsilon_decay p <= 1)%Q) by (vm_compute; discriminate).
  destruct (epsilon_schedule p ∅) as (_ & Hmono & _).
  split; [reflexivity|]. split; [exact H0|]. split; [exact H1|].
  split; [exact H2|].
  exact (Hmono eq_refl H0 H1 H2 ops1 ops2).
Defined.

(** ** Further properties of the agent's methods *)

Section AgentExtras.

Context {G Opt Mem : Type}.
Context {RS : RandomSource G} {OP : Optimizer Opt} {MS : ReplayStore G Mem}.
Context {ES : Estimator} {BA : BaseAgent}.

Local Abbreviation World := (World G Opt Mem).
Local Abbreviation Agent := (Agent Opt Mem).

Open Scope Q_scope.
Open Scope Z_scope.

Ltac method_cases :=
  rewrite ?step_run, ?act_run, ?get_beta_run, ?load_model_run,
    ?save_model_run, ?soft_update_run;
  cbv zeta;
  repeat (rewrite ?learn_run; case_match; simpl in *);
  rewrite ?learn_run.

Ltac count_segments :=
  repeat rewrite count_calls_app; unfold count_calls; simpl; try lia.

(** *** Acting without exploration *)

(** X1. With exploration disabled, [act] returns the arg-max of the
    local estimator and changes nothing at all: no random number is
    drawn, epsilon is not decayed, and a whole sequence of [act] calls
    leaves the program state as it was. *)
Theorem act_without_exploration (w : World) (state : list Q) :
  epsilon_enabled (hp (self w)) = false ->
  (act state w).1 = greedy (self w) state
  /\ (act state w).2 = w
  /\ forall states : list (list Q), run (map ActOp states) w = w.
Proof.
  intros He.
  destruct (act_disabled state w He) as [Hw Hr].
  split; [exact Hr|]. split; [exact Hw|].
  intros states. induction states as [|s states IH]; [reflexivity|].
  simpl map. rewrite run_cons. simpl run_op.
  destruct (act_disabled s w He) as [-> _]. exact IH.
Qed.

(** *** The step counter *)

Lemma run_op_t_step (o : Op) (w : World) :
  is_step o = false -> t_step (self (run_op o w)) = t_step (self w).
Proof.
  destruct o; simpl; try discriminate; intros _; method_cases; reflexivity.
Qed.

Lemma step_t_step state action reward next_state done episode (w : World) :
  update_every (hp (self w)) <> 0 ->
  t_step (self (step state action reward next_state done episode w).2)
  = (t_step (self w) + 1) mod update_every (hp (self w)).
Proof.
  intros Hue.
  destruct (step_cadence state action reward next_state done episode w)
    as (seg & _ & _ & Hmod).
  unfold py_mod in Hmod.
  destruct (Z.eqb_spec (update_every (hp (self w))) 0) as [H|_];
    [contradiction|].
  exact (proj1 Hmod).
Qed.

Lemma run_t_step (ops : list Op) (w : World) :
  update_every (hp (self w)) <> 0 ->
  t_step (self w) = t_step (self w) mod update_every (hp (self w)) ->
  t_step (self (run ops w))
  = (t_step (self w) + Z.of_nat (count_ops is_step ops))
      mod update_every (hp (self w)).
Proof.
  revert w. induction ops as [|o ops IH]; intros w Hue Ht.
  - unfold count_ops. simpl. rewrite Z.add_0_r. exact Ht.
  - rewrite run_cons.
    assert (Hhp : hp (self (run_op o w)) = hp (self w)) by apply run_op_hp.
    assert (Hnext : t_step (self (run_op o w))
                    = (t_step (self w) + (if is_step o then 1 else 0))
                        mod update_every (hp (self w))).
    { destruct (is_step o) eqn:Ho.
      - destruct o; try discriminate. apply step_t_step. exact Hue.
      - rewrite run_op_t_step, Z.add_0_r by exact Ho. exact Ht. }
    specialize (IH (run_op o w)). rewrite Hhp in IH.
    rewrite IH; [|exact Hue|rewrite Hnext, Z.mod_mod by exact Hue; reflexivity].
    rewrite Hnext, Z.add_mod_idemp_l by exact Hue.
    f_equal. unfold count_ops. simpl.
    destruct (is_step o); simpl; lia.
Qed.

(** X2. From construction on and with [update_every <> 0], the step
    counter equals the number of [step] calls made so far modulo
    [update_every], whatever other calls come in between and even when
    a [step] call raised inside its learning branch. *)
Theorem step_counter_counts_steps (p : HyperParams)
    (fs : gmap string (list Q)) (ops : list Op) :
  update_every p <> 0 ->
  t_step (self (run ops (construct p fs : World)))
  = Z.of_nat (count_ops is_step ops) mod update_every p.
Proof.
  intros Hue.
  rewrite run_t_step; simpl; [reflexivity | exact Hue |].
  rewrite Z.mod_0_l by exact Hue. reflexivity.
Qed.

(** X3. With [update_every = 0] every [step] call raises
    [ZeroDivisionError]; the transition has been stored by then, the
    counter keeps its value and [learn] is not reached. *)
Theorem step_with_zero_update_every state action reward next_state done
    episode (w : World) :
  update_every (hp (self w)) = 0 ->
  let w' := (step state action reward next_state done episode w).2 in
  (step state action reward next_state done episode w).1
  = Raise ZeroDivisionError
  /\ memory (self w')
     = memory_add (memory (self w)) (stored state action reward next_state done)
  /\ t_step (self w') = t_step (self w)
  /\ calls w' = calls w ++ [AddCall].
Proof.
  intros Hue. cbv zeta. rewrite step_run. cbv zeta.
  unfold py_mod. rewrite Hue. simpl. repeat split.
Qed.

(** *** The greedy action *)

Lemma argmax_from_spec (row pre : list Q) (i b : Z) (bv : Q) :
  i = Z.of_nat (length pre) ->
  0 <= b < i ->
  pre !! Z.to_nat b = Some bv ->
  (forall x, x ∈ pre -> (x <= bv)%Q) ->
  (forall (j : nat) x, (j < Z.to_nat b)%nat -> pre !! j = Some x -> (x < bv)%Q) ->
  let k := argmax_from i (b, bv) row in
  0 <= k < Z.of_nat (length (pre ++ row))
  /\ exists v,
       (pre ++ row) !! Z.to_nat k = Some v
       /\ (forall x, x ∈ pre ++ row -> (x <= v)%Q)
       /\ (forall (j : nat) x,
             (j < Z.to_nat k)%nat -> (pre ++ row) !! j = Some x -> (x < v)%Q).
Proof.
  revert pre i b bv. induction row as [|v vs IH];
    intros pre i b bv Hi Hb Hbv Hall Hfirst.
  - simpl. rewrite app_nil_r. split; [lia|]. exists bv. auto.
  - cbn [argmax_from snd].
    replace (pre ++ v :: vs) with ((pre ++ [v]) ++ vs)
      by (rewrite <- app_assoc; reflexivity).
    assert (Hlen : i + 1 = Z.of_nat (length (pre ++ [v])))
      by (rewrite length_app; simpl; lia).
    destruct (Qcompare_spec bv v) as [Heq|Hlt|Hgt].
    + apply IH; auto; [lia | | |].
      * rewrite lookup_app_l; [exact Hbv | lia].
      * intros x Hx. apply elem_of_app in Hx as [Hx|Hx]; [auto|].
        apply list_elem_of_singleton in Hx as ->. rewrite Heq. apply Qle_refl.
      * intros j x Hj Hx. apply (Hfirst j x Hj).
        rewrite lookup_app_l in Hx; [exact Hx | lia].
    + apply IH; auto; [lia | | |].
      * replace (Z.to_nat i) with (length pre) by lia.
        rewrite lookup_app_r, Nat.sub_diag by lia. reflexivity.
      * intros x Hx. apply elem_of_app in Hx as [Hx|Hx].
        -- apply Qlt_le_weak. eapply Qle_lt_trans; [apply Hall, Hx | exact Hlt].
        -- apply list_elem_of_singleton in Hx as ->. apply Qle_refl.
      * intros j x Hj Hx. rewrite lookup_app_l in Hx by lia.
        eapply Qle_lt_trans; [|exact Hlt].
        apply Hall. apply list_elem_of_lookup. eauto.
    + apply IH; auto; [lia | | |].
      * rewrite lookup_app_l; [exact Hbv | lia].
      * intros x Hx. apply elem_of_app in Hx as [Hx|Hx]; [auto|].
        apply list_elem_of_singleton in Hx as ->. apply Qlt_le_weak, Hgt.
      * intros j x Hj Hx. apply (Hfirst j x Hj).
        rewrite lookup_app_l in Hx; [exact Hx | lia].
Qed.

(** X4. Whenever the local estimator returns at least one value, the
    greedy choice of [act] is a valid index into the action values, the
    value it points at is at least every action value, and every earlier
    value is strictly smaller: ties go to the lowest index. *)
Theorem greedy_is_first_maximum (a : Agent) (state : list Q) :
  let values := forward (qnet_local a) (prep_state state) in
  values <> [] ->
  exists (k : Z) (v : Q),
    greedy a state = Ok k
    /\ 0 <= k < Z.of_nat (length values)
    /\ values !! Z.to_nat k = Some v
    /\ (forall x, x ∈ values -> (x <= v)%Q)
    /\ (forall (j : nat) x,
          (j < Z.to_nat k)%nat -> values !! j = Some x -> (x < v)%Q).
Proof.
  intros values Hne. unfold greedy. fold values.
  destruct values as [|v vs]; [congruence|]. simpl np_argmax.
  destruct (argmax_from_spec vs [v] 1 0 v) as (Hk & v' & Hv & Hmax & Hfirst).
  - reflexivity.
  - lia.
  - reflexivity.
  - intros x Hx. apply list_elem_of_singleton in Hx as ->. apply Qle_refl.
  - intros j x Hj. simpl in Hj. lia.
  - exists (argmax_from 1 (0, v) vs), v'. simpl app in *. auto.
Qed.

(** *** The learning step *)

Lemma unpack_ok_iff (prioritized : bool) (experiences : Experiences) :
  (exists b, unpack prioritized experiences = Ok b)
  <-> is_batch7 experiences = prioritized.
Proof.
  destruct prioritized, experiences; simpl; split;
    try reflexivity; try discriminate; eauto;
    intros [b Hb]; discriminate.
Qed.

Lemma unpack_raises (prioritized : bool) (experiences : Experiences) (e : exn) :
  unpack prioritized experiences = Raise e -> e = ValueError.
Proof. destruct prioritized, experiences; simpl; congruence. Qed.

Lemma unpack_extras (prioritized : bool) (experiences : Experiences)
    (b : Unpacked) :
  unpack prioritized experiences = Ok b ->
  if prioritized
  then exists index sampling_weights, extras b = Some (index, sampling_weights)
  else extras b = None.
Proof.
  destruct prioritized, experiences; simpl; try discriminate;
    intros [= <-]; simpl; eauto.
Qed.

(** X5. When the batch has the arity of the other memory variant (five
    columns on a prioritized agent, seven on a uniform one), [learn]
    raises [ValueError] at its tuple assignment: no loss is recorded, no
    optimizer step and no soft update take place, and the agent, the
    random generator and the files are left as they were. *)
Theorem learn_rejects_wrong_arity (w : World) (experiences : Experiences) :
  is_batch7 experiences = negb (prioritized_memory (hp (self w))) ->
  let r := learn experiences w in
  r.1 = Raise ValueError
  /\ self r.2 = self w /\ rng r.2 = rng w /\ files r.2 = files w
  /\ calls r.2 = calls w ++ [LearnCall].
Proof.
  intros Hm. cbv zeta. rewrite learn_run.
  destruct (unpack _ _) as [b|e] eqn:Hu; simpl.
  - exfalso.
    assert (H : is_batch7 experiences = prioritized_memory (hp (self w)))
      by (apply unpack_ok_iff; eauto).
    rewrite H in Hm. destruct (prioritized_memory _); discriminate.
  - apply unpack_raises in Hu as ->. auto.
Qed.

Lemma run_op_losses (o : Op) (w : World) :
  exists new,
    losses (self (run_op o w)) = losses (self w) ++ new
    /\ count_calls is_optimizer_step (calls (run_op o w))
       = (count_calls is_optimizer_step (calls w) + length new)%nat.
Proof.
  destruct o; unfold run_op; method_cases; simpl;
    first [ solve [exists []; split; [symmetry; apply app_nil_r|];
                   count_segments]
          | solve [eexists [_]; split; [reflexivity|]; count_segments] ].
Qed.

(** X6. The loss history is append-only: whatever calls are made, the
    losses recorded before are still there, in order, and exactly one
    loss has been added per optimizer step. *)
Theorem losses_append_only (ops : list Op) (w : World) :
  exists new,
    losses (self (run ops w)) = losses (self w) ++ new
    /\ count_calls is_optimizer_step (calls (run ops w))
       = (count_calls is_optimizer_step (calls w) + length new)%nat.
Proof.
  revert w. induction ops as [|o ops IH]; intros w.
  - exists []. split; [symmetry; apply app_nil_r | simpl; lia].
  - rewrite run_cons.
    destruct (run_op_losses o w) as (new1 & Hl1 & Hc1).
    destruct (IH (run_op o w)) as (new2 & Hl2 & Hc2).
    exists (new1 ++ new2). rewrite Hl2, Hl1, Hc2, Hc1, length_app, app_assoc.
    split; [reflexivity | lia].
Qed.

(** *** What a [step] call does to the memory and how it can fail *)

(** X7. After every [step] call, also one that raises, the memory is
    the old memory with the preprocessed transition added, followed by
    at most one [update_priority], which happens in the prioritized
    variant only; and exactly one [add] was made. *)
Theorem step_stores_the_transition state action reward next_state done
    episode (w : World) :
  let m1 :=
    memory_add (memory (self w)) (stored state action reward next_state done) in
  let w' := (step state action reward next_state done episode w).2 in
  (memory (self w') = m1
   \/ (prioritized_memory (hp (self w)) = true
       /\ exists index priorities,
            memory (self w') = memory_update_priority m1 index priorities))
  /\ count_calls is_add (calls w') = S (count_calls is_add (calls w)).
Proof.
  cbv zeta. split.
  - rewrite step_run. cbv zeta.
    destruct (py_mod _ _) as [t|e]; [|left; reflexivity].
    destruct (learning_due _ _); [|left; reflexivity].
    destruct (prioritized_memory (hp (self w))) eqn:Hp.
    + destruct (float_pow _ _) as [p|e]; [|left; reflexivity].
      rewrite learn_run. simpl. rewrite Hp.
      destruct (unpack true _) as [b|e] eqn:Hu; [|left; reflexivity].
      apply unpack_extras in Hu as (index & sw & Hx).
      right. split; [reflexivity|]. simpl. rewrite Hx. eauto.
    + rewrite learn_run. simpl. rewrite Hp.
      destruct (unpack false _) as [b|e] eqn:Hu; [|left; reflexivity].
      apply unpack_extras in Hu. left. simpl. rewrite Hu. reflexivity.
  - destruct (step_cadence state action reward next_state done episode w)
      as (seg & Hc & Ha & _).
    cbv zeta in Hc. rewrite Hc, count_calls_app.
    change (count_calls is_add (AddCall :: seg))
      with (S (count_calls is_add seg)).
    rewrite Ha. lia.
Qed.

(** X9. With [update_every <> 0], a [step] call makes one [learn] call
    when the advanced counter is 0, the memory after the add holds more
    than [batch_size] transitions and (prioritized variant) the beta
    schedule returns at [episode], and none otherwise.  In the uniform
    variant the first two conditions decide alone; and no [learn] call
    is made while the memory holds at most [batch_size] transitions. *)
Theorem learn_calls_per_step state action reward next_state done episode
    (w : World) :
  update_every (hp (self w)) <> 0 ->
  let w' := (step state action reward next_state done episode w).2 in
  let due :=
    ((t_step (self w) + 1) mod update_every (hp (self w)) =? 0)
    && (batch_size (hp (self w))
        <? memory_len
             (memory_add (memory (self w))
                (stored state action reward next_state done))) in
  count_calls is_learn (calls w')
  = (count_calls is_learn (calls w)
     + if due && beta_returns w episode then 1 else 0)%nat
  /\ (prioritized_memory (hp (self w)) = false ->
      count_calls is_learn (calls w')
      = (count_calls is_learn (calls w) + if due then 1 else 0)%nat)
  /\ (memory_len
        (memory_add (memory (self w))
           (stored state action reward next_state done))
      <= batch_size (hp (self w)) ->
      count_calls is_learn (calls w') = count_calls is_learn (calls w)).
Proof.
  intros Hue. cbv zeta.
  destruct (step_cadence state action reward next_state done episode w)
    as (seg & Hc & _ & Hmod).
  cbv zeta in Hc, Hmod. rewrite Hc, count_calls_app.
  change (count_calls is_learn (AddCall :: seg))
    with (count_calls is_learn seg).
  unfold py_mod in Hmod.
  destruct (Z.eqb_spec (update_every (hp (self w))) 0) as [H|_];
    [contradiction|].
  destruct Hmod as [_ ->]. unfold learning_due. simpl.
  split; [reflexivity|]. split.
  - intros Hp. unfold beta_returns. rewrite Hp. simpl.
    rewrite andb_true_r. reflexivity.
  - intros Hlen.
    destruct (Z.ltb_spec (batch_size (hp (self w)))
                (memory_len
                   (memory_add (memory (self w))
                      (stored state action reward next_state done))))
      as [H|_]; [lia|].
    rewrite andb_false_r. simpl. lia.
Qed.

(** *** Repeated soft updates *)

Lemma Qpower_succ_nat (a : Q) (n : nat) :
  (a ^ Z.of_nat (S n) == a * a ^ Z.of_nat n)%Q.
Proof.
  rewrite Nat2Z.inj_succ. unfold Z.succ.
  rewrite Qpower_plus' by lia. rewrite Qpower_1_r. ring.
Qed.

Lemma repeat_call_succ {A} (n : nat) (c : M World A) (w : World) :
  repeat_call (S n) c w = (c (repeat_call n c w)).2.
Proof. reflexivity. Qed.

Lemma repeat_soft_update_frame (n : nat) (w : World) :
  hp (self (repeat_call n soft_update w)) = hp (self w)
  /\ qnet_local (self (repeat_call n soft_update w)) = qnet_local (self w).
Proof.
  induction n as [|n [IHh IHl]]; [split; reflexivity|].
  rewrite repeat_call_succ, soft_update_run. simpl. auto.
Qed.

Lemma soft_update_iterate_lookup (n : nat) (w : World) (i : nat) (t l : Q) :
  qnet_target (self w) !! i = Some t ->
  qnet_local (self w) !! i = Some l ->
  exists v,
    qnet_target (self (repeat_call n soft_update w)) !! i = Some v
    /\ (v == l + (1 - tau (hp (self w))) ^ Z.of_nat n * (t - l))%Q.
Proof.
  intros Ht Hl. induction n as [|n (v & Hv & Heq)].
  - exists t. split; [exact Ht|]. simpl. ring.
  - destruct (repeat_soft_update_frame n w) as [Hhp Hloc].
    rewrite repeat_call_succ, soft_update_run.
    cbn [snd self qnet_target set_qnet_target].
    rewrite Hhp, Hloc.
    eexists. split; [apply soft_update_params_lookup; eassumption|].
    rewrite Heq, Qpower_succ_nat.
    generalize ((1 - tau (hp (self w))) ^ Z.of_nat n)%Q. intros P. ring.
Qed.

(** X10. With [0 <= tau <= 1], [soft_update] puts every target
    parameter between its old value and the local parameter at the same
    position: it never overshoots. *)
Theorem soft_update_stays_between (w : World) (i : nat) (t l : Q) :
  (0 <= tau (hp (self w)))%Q ->
  (tau (hp (self w)) <= 1)%Q ->
  qnet_target (self w) !! i = Some t ->
  qnet_local (self w) !! i = Some l ->
  exists v,
    qnet_target (self (soft_update w).2) !! i = Some v
    /\ ((t <= v /\ v <= l) \/ (l <= v /\ v <= t))%Q.
Proof.
  intros H0 H1 Ht Hl. rewrite soft_update_run. simpl.
  eexists. split; [apply soft_update_params_lookup; eassumption|].
  generalize dependent (tau (hp (self w))). intros c H0 H1.
  destruct (Qlt_le_dec t l) as [Hlt|Hle]; [left | right]; split; nra.
Qed.


(** *** Repeated decay *)

Lemma py_max_compat (a b b' : Q) :
  (b == b')%Q -> (py_max a b == py_max a b')%Q.
Proof.
  intros Hb.
  destruct (py_max_cases a b) as [[H ->]|[H ->]];
    destruct (py_max_cases a b') as [[H' ->]|[H' ->]]; lra.
Qed.

Lemma py_max_absorbs_decay (e_end d x : Q) :
  (0 <= e_end)%Q -> (0 <= d)%Q -> (d <= 1)%Q ->
  (py_max e_end (d * py_max e_end x) == py_max e_end (d * x))%Q.
Proof.
  intros H0 Hd0 Hd1.
  destruct (py_max_cases e_end x) as [[H ->]|[H ->]]; [apply Qeq_refl|].
  destruct (py_max_cases e_end (d * e_end)) as [[H1 ->]|[H1 ->]];
    destruct (py_max_cases e_end (d * x)) as [[H2 ->]|[H2 ->]]; nra.
Qed.

Lemma repeat_decay_frame (n : nat) (w : World) :
  hp (self (repeat_call n decay_eps w)) = hp (self w).
Proof.
  induction n as [|n IH]; [reflexivity|].
  rewrite repeat_call_succ, decay_eps_run. exact IH.
Qed.

Lemma repeat_decay_succ (n : nat) (w : World) :
  epsilon (self (repeat_call (S n) decay_eps w))
  = py_max (epsilon_end (hp (self w)))
      (epsilon_decay (hp (self w))
       * epsilon (self (repeat_call n decay_eps w)))%Q.
Proof.
  rewrite repeat_call_succ, decay_eps_run. unfold decayed.
  cbn [self epsilon set_epsilon]. rewrite repeat_decay_frame. reflexivity.
Qed.

Lemma repeat_decay_closed_form (n : nat) (w : World) :
  (0 <= epsilon_end (hp (self w)))%Q ->
  (0 <= epsilon_decay (hp (self w)))%Q ->
  (epsilon_decay (hp (self w)) <= 1)%Q ->
  (epsilon (self (repeat_call (S n) decay_eps w))
   == py_max (epsilon_end (hp (self w)))
        (epsilon_decay (hp (self w)) ^ Z.of_nat (S n) * epsilon (self w)))%Q.
Proof.
  intros H0 Hd0 Hd1. induction n as [|n IH].
  - rewrite repeat_decay_succ. apply py_max_compat.
    change (Z.of_nat 1) with 1%Z. rewrite Qpower_1_r. reflexivity.
  - rewrite repeat_decay_succ.
    rewrite (py_max_compat _ _ _ (Qmult_comp _ _ (Qeq_refl _) _ _ IH)).
    rewrite py_max_absorbs_decay by assumption.
    apply py_max_compat.
    rewrite (Qpower_succ_nat _ (S n)). ring.
Qed.

Lemma repeat_decay_at_floor (n : nat) (w : World) :
  (0 <= epsilon_end (hp (self w)))%Q ->
  (epsilon_decay (hp (self w)) <= 1)%Q ->
  (epsilon (self w) == epsilon_end (hp (self w)))%Q ->
  (epsilon (self (repeat_call n decay_eps w)) == epsilon_end (hp (self w)))%Q.
Proof.
  intros H0 Hd1 Heq. induction n as [|n IH]; [exact Heq|].
  rewrite repeat_decay_succ.
  destruct (py_max_cases (epsilon_end (hp (self w)))
              (epsilon_decay (hp (self w))
               * epsilon (self (repeat_call n decay_eps w)))%Q)
    as [[H ->]|[H ->]]; nra.
Qed.


(** *** Signs of the losses and the priorities *)

Lemma squared_errors_nonneg (x y : tensor) :
  Forall (fun v => (0 <= v)%Q) (squared_errors x y).
Proof.
  apply Forall_lookup. intros i v. unfold squared_errors.
  rewrite lookup_zip_with.
  destruct (x !! i) as [a|]; [|discriminate].
  destruct (y !! i) as [b|]; [|discriminate].
  cbn [mbind option_bind]. intros [= <-]. cbv beta.
  destruct (Qlt_le_dec (a - b) 0); nra.
Qed.

Lemma tmul_nonneg (x y : tensor) :
  Forall (fun v => (0 <= v)%Q) x ->
  Forall (fun v => (0 <= v)%Q) y ->
  Forall (fun v => (0 <= v)%Q) (tmul x y).
Proof.
  intros Hx Hy. apply Forall_lookup. intros i v. unfold tmul.
  rewrite lookup_zip_with.
  destruct (x !! i) as [a|] eqn:Ha; [|discriminate].
  destruct (y !! i) as [b|] eqn:Hb; [|discriminate].
  cbn [mbind option_bind]. intros [= <-].
  pose proof (proj1 (Forall_lookup _ _) Hx i a Ha) as Ha0.
  pose proof (proj1 (Forall_lookup _ _) Hy i b Hb) as Hb0.
  cbv beta in Ha0, Hb0 |- *. nra.
Qed.

Lemma tsum_nonneg (x : tensor) :
  Forall (fun v => (0 <= v)%Q) x -> (0 <= tsum x)%Q.
Proof.
  induction 1 as [|v x Hv _ IH]; [apply Qle_refl|].
  change (tsum (v :: x)) with (v + tsum x)%Q. lra.
Qed.

Lemma tmean_nonneg (x : tensor) :
  Forall (fun v => (0 <= v)%Q) x -> (0 <= tmean x)%Q.
Proof.
  intros Hx. unfold tmean, Qdiv.
  apply Qmult_le_0_compat; [apply tsum_nonneg; exact Hx|].
  apply Qinv_le_0_compat.
  change 0%Q with (inject_Z 0). rewrite <- Zle_Qle. lia.
Qed.


Lemma well_shaped_lengths (local target : list Q) (b : Unpacked) :
  well_shaped local target b = true ->
  let n := length (states b) in
  (0 < n)%nat
  /\ length (actions b) = n /\ length (rewards b) = n
  /\ length (next_states b) = n /\ length (dones b) = n
  /\ (forall index sampling_weights,
        extras b = Some (index, sampling_weights) ->
        length sampling_weights = n).
Proof.
  unfold well_shaped. cbv zeta.
  rewrite !andb_true_iff, Nat.ltb_lt, !Nat.eqb_eq.
  intros [[[[[[[H0 Ha] Hr] Hn] Hd] Hx] _] _].
  repeat (split; [assumption|]).
  intros index sw He. rewrite He in Hx.
  apply andb_true_iff in Hx as [_ Hx]. apply Nat.eqb_eq in Hx. exact Hx.
Qed.

Lemma per_sample_length (local target : list Q) (gamma : Q) (b : Unpacked) :
  well_shaped local target b = true ->
  length (squared_errors (compute_Q_expected local b)
            (compute_Q_targets gamma target b))
  = length (states b).
Proof.
  intros Hs.
  destruct (well_shaped_lengths _ _ _ Hs) as (_ & Ha & Hr & Hn & Hd & _).
  unfold squared_errors, compute_Q_expected, compute_Q_targets,
    compute_Q_targets_next, gather1, tadd, tmul, tscale, trsub.
  rewrite !length_zip_with, !length_map. lia.
Qed.

(** X15. On a well-shaped batch (every column with the same positive
    number [n] of rows, every action within its row), the loss that
    [learn] records is the mean of [n] per-sample losses, none of them
    negative, and so is not negative itself: in the uniform variant
    always and in the prioritized one when no importance weight is
    negative. *)
Theorem recorded_loss_is_nonnegative (w : World) (experiences : Experiences)
    (b : Unpacked) :
  unpack (prioritized_memory (hp (self w))) experiences = Ok b ->
  well_shaped (qnet_local (self w)) (qnet_target (self w)) b = true ->
  (forall index sampling_weights,
     extras b = Some (index, sampling_weights) ->
     Forall (fun v => (0 <= v)%Q) sampling_weights) ->
  exists per_sample,
    losses (self (learn experiences w).2)
    = losses (self w) ++ [tmean per_sample]
    /\ length per_sample = length (states b)
    /\ (0 < length per_sample)%nat
    /\ Forall (fun v => (0 <= v)%Q) per_sample
    /\ (0 <= tmean per_sample)%Q.
Proof.
  intros Hb Hs Hw. rewrite learn_run, Hb. simpl.
  pose proof (per_sample_length _ _ (gamma (hp (self w))) _ Hs) as Hlen.
  destruct (well_shaped_lengths _ _ _ Hs) as (Hn & _ & _ & _ & _ & Hsw).
  cbv zeta in Hn, Hsw.
  unfold loss_graph.
  destruct (extras b) as [[index sw]|] eqn:Hx.
  - eexists. split; [reflexivity|].
    assert (Hl : length
                   (tmul (squared_errors
                            (compute_Q_expected (qnet_local (self w)) b)
                            (compute_Q_targets (gamma (hp (self w)))
                               (qnet_target (self w)) b)) sw)
                 = length (states b)).
    { unfold tmul. rewrite length_zip_with, Hlen, (Hsw index sw eq_refl). lia. }
    assert (Hpos : Forall (fun v => (0 <= v)%Q)
                     (tmul (squared_errors
                              (compute_Q_expected (qnet_local (self w)) b)
                              (compute_Q_targets (gamma (hp (self w)))
                                 (qnet_target (self w)) b)) sw))
      by (apply tmul_nonneg;
            [apply squared_errors_nonneg | exact (Hw index sw eq_refl)]).
    split; [exact Hl|]. split; [rewrite Hl; exact Hn|].
    split; [exact Hpos | apply tmean_nonneg; exact Hpos].
  - eexists. split; [reflexivity|].
    split; [exact Hlen|]. split; [rewrite Hlen; exact Hn|].
    split; [apply squared_errors_nonneg
           | apply tmean_nonneg, squared_errors_nonneg].
Qed.

(** *** Checkpoints *)

Lemma run_op_files (o : Op) (w : World) :
  is_save o = false -> files (run_op o w) = files w.
Proof.
  destruct o; unfold run_op; simpl is_save; intros Hs;
    try discriminate; method_cases; reflexivity.
Qed.

Lemma run_files (ops : list Op) (w : World) :
  Forall (fun o => is_save o = false) ops -> files (run ops w) = files w.
Proof.
  intros Hops. revert w. induction Hops as [|o ops Ho _ IH]; intros w;
    [reflexivity|].
  rewrite run_cons, IH. apply run_op_files. exact Ho.
Qed.

(** X16. A checkpoint survives every call that is not a [save_model]:
    after a [save_model path] that returned, any calls among which
    there is no further [save_model], and [load_model path] (into an
    estimator with as many parameters as were saved), the local
    parameters are those of the moment of the save, while the target
    estimator, the optimizer, the memory, epsilon, the counter and the
    losses are those of the moment of the load: they are not rolled
    back. *)
Theorem checkpoint_restores_local_only (path : string) (ops : list Op)
    (w : World) :
  (save_model path w).1 = Ok tt ->
  Forall (fun o => is_save o = false) ops ->
  let w2 := run ops (save_model path w).2 in
  length (qnet_local (self w2)) = length (qnet_local (self w)) ->
  (load_model path w2).1 = Ok tt
  /\ self (load_model path w2).2
     = set_qnet_local (qnet_local (self w)) (self w2).
Proof.
  intros _ Hops w2 Hlen.
  assert (Hfile : files w2 !! path = Some (qnet_local (self w))).
  { unfold w2. rewrite run_files by exact Hops.
    rewrite save_model_run. simpl. apply lookup_insert_eq. }
  rewrite load_model_run, Hfile, Hlen, Nat.eqb_refl. split; reflexivity.
Qed.

(** *** The default beta schedule *)

Lemma growth_18_below : ((21 # 20) ^ 18 < 5 # 2)%Q.
Proof. reflexivity. Qed.

Lemma growth_19_above : (5 # 2 < (21 # 20) ^ 19)%Q.
Proof. reflexivity. Qed.

Lemma growth_18_in_range : float_overflow ((21 # 20) ^ 18)%Q = false.
Proof. vm_compute. reflexivity. Qed.

(** X17. On a prioritized agent the default schedule ([beta_start =
    0.4], [beta_end = 1], [beta_growth = 1.05]) returns
    [0.4 * 1.05^i], which is below 1, for the episodes 0 to 18, and
    exactly the cap 1 from episode 19 on for as long as the power stays
    in the float range. *)
Theorem default_beta_saturates (w : World) (i : Z) :
  prioritized_memory (hp (self w)) = true ->
  (0 <= i <= 18 ->
   get_beta_default i w = (Ok ((2 # 5) * (21 # 20) ^ i)%Q, w)
   /\ ((2 # 5) * (21 # 20) ^ i < 1)%Q)
  /\ (19 <= i ->
      float_overflow ((21 # 20) ^ i)%Q = false ->
      get_beta_default i w = (Ok 1%Q, w)).
Proof.
  intros Hp. unfold get_beta_default. split.
  - intros [Hi0 Hi18].
    assert (Hle : ((21 # 20) ^ i <= (21 # 20) ^ 18)%Q)
      by (apply Qpower_le_compat_l; [exact Hi18 | discriminate]).
    assert (Hpos : (0 <= (21 # 20) ^ i)%Q)
      by (apply Qpower_0_le; discriminate).
    assert (Hov : float_overflow ((21 # 20) ^ i)%Q = false).
    { apply (float_overflow_mono _ ((21 # 20) ^ 18)%Q);
        [|exact growth_18_in_range].
      rewrite !Qabs_pos; [exact Hle | | exact Hpos].
      eapply Qle_trans; eassumption. }
    pose proof growth_18_below as H18.
    assert (Hlt : ((2 # 5) * (21 # 20) ^ i < 1)%Q).
    { generalize dependent ((21 # 20) ^ i)%Q.
      generalize dependent ((21 # 20) ^ 18)%Q. intros. lra. }
    split; [|exact Hlt].
    rewrite get_beta_run, Hp, float_pow_in_range
      by first [ assumption
               | apply default_growth_in_range_converts; assumption ].
    destruct (py_min_cases ((2 # 5) * (21 # 20) ^ i)%Q 1) as [[H _]|[_ ->]];
      [|reflexivity].
    exfalso. generalize dependent ((21 # 20) ^ i)%Q. intros. lra.
  - intros Hi Hov.
    assert (Hle : ((21 # 20) ^ 19 <= (21 # 20) ^ i)%Q)
      by (apply Qpower_le_compat_l; [exact Hi | discriminate]).
    pose proof growth_19_above as H19.
    rewrite get_beta_run, Hp, float_pow_in_range
      by first [ assumption | lia
               | apply default_growth_in_range_converts; [lia | assumption] ].
    destruct (py_min_cases ((2 # 5) * (21 # 20) ^ i)%Q 1) as [[_ ->]|[H _]];
      [reflexivity|].
    exfalso. generalize dependent ((21 # 20) ^ i)%Q.
    generalize dependent ((21 # 20) ^ 19)%Q. intros. lra.
Qed.

(** X18. On a prioritized agent the default schedule raises
    [OverflowError] at every episode from 15360 on, and so does every
    [step] call of such an episode whose learning gate holds: the
    transition is stored, the counter advanced, and [learn] is not
    reached. *)
Theorem default_beta_overflows_late (w : World) (i : Z) :
  prioritized_memory (hp (self w)) = true ->
  15360 <= i ->
  get_beta_default i w = (Raise OverflowError, w)
  /\ forall state action reward next_state done (t : Z),
       py_mod (t_step (self w) + 1) (update_every (hp (self w))) = Ok t ->
       learning_due t
         (with_t_step t
            (after_add (stored state action reward next_state done) w))
       = true ->
       step state action reward next_state done i w
       = (Raise OverflowError,
          with_t_step t
            (after_add (stored state action reward next_state done) w)).
Proof.
  intros Hp Hi.
  pose proof (default_growth_overflows i Hi) as Hov.
  split.
  - unfold get_beta_default. apply get_beta_overflows; assumption.
  - intros state action reward next_state done t Ht Hdue.
    apply step_overflow; assumption.
Qed.

(** X19. On an agent without prioritized memory [get_beta] raises
    [TypeError] whatever its arguments are, also those at which the
    power would overflow, and leaves the program state as it was. *)
Theorem get_beta_requires_prioritized (w : World) (i : Z)
    (beta_start beta_end beta_growth : Q) :
  prioritized_memory (hp (self w)) = false ->
  get_beta i beta_start beta_end beta_growth w
  = (Raise (TypeError "This agent is not using prioritized memory."), w).
Proof. intros Hp. rewrite get_beta_run, Hp. reflexivity. Qed.

(** *** The diagnostic string *)

Lemma format_2f_integer (n : Z) :
  format_2f (inject_Z n)
  = ((if (0 <=? n)%Z then "" else "-") ++ pretty (Z.abs n) ++ ".00")%string.
Proof.
  unfold format_2f, round_half_even.
  assert (Hnum : Qnum (Qabs (inject_Z n) * 100) = Z.abs n * 100)
    by reflexivity.
  assert (Hden : Qden (Qabs (inject_Z n) * 100) = 1%positive) by reflexivity.
  rewrite Hnum, Hden, Z.div_1_r, Z.mod_1_r.
  change (2 * 0 ?= 1) with Lt. cbv iota.
  rewrite Z.div_mul, Z.mod_mul by lia.
  assert (Hsign : Qle_bool 0 (inject_Z n) = (0 <=? n)).
  { unfold Qle_bool, inject_Z. cbn [Qnum Qden].
    change (0 * 1) with 0. rewrite Z.mul_1_r. reflexivity. }
  rewrite Hsign. reflexivity.
Qed.

Lemma last_n_spec {A} (n : nat) (l : list A) :
  exists old,
    l = old ++ last_n n l /\ length (last_n n l) = Nat.min n (length l).
Proof.
  unfold last_n. exists (take (length l - n) l).
  split; [symmetry; apply take_drop|]. rewrite length_drop. lia.
Qed.

(** X20. [logs] prints epsilon with two decimals and, for the loss,
    [inf] when no loss was recorded, and otherwise the integer part of
    the mean of the last [min(100, len)] recorded losses followed by
    [.00]: the decimals of the mean never show. *)
Theorem logs_shows_integer_average (a : Agent) :
  (losses a = [] ->
   logs a
   = ("Epsilon: " ++ format_2f (epsilon a) ++ tab
        ++ "Avg. MSE Loss: inf")%string)
  /\ (losses a <> [] ->
      exists (old recent : list Q) (n : Z),
        losses a = old ++ recent
        /\ length recent = Nat.min 100 (length (losses a))
        /\ n = py_int (tmean recent)
        /\ logs a
           = ("Epsilon: " ++ format_2f (epsilon a) ++ tab
                ++ "Avg. MSE Loss: "
                ++ (if (0 <=? n)%Z then "" else "-")
                ++ pretty (Z.abs n) ++ ".00")%string).
Proof.
  unfold logs. split.
  - intros ->. reflexivity.
  - intros Hne.
    destruct (last_n_spec 100 (losses a)) as (old & Hold & Hlen).
    exists old, (last_n 100 (losses a)), (py_int (tmean (last_n 100 (losses a)))).
    split; [exact Hold|]. split; [exact Hlen|]. split; [reflexivity|].
    destruct (losses a) as [|x xs] eqn:Hl; [congruence|].
    change (0 <? length (x :: xs))%nat with true. cbv iota.
    unfold format_avg_loss. rewrite format_2f_integer. reflexivity.
Qed.

(** *** What changes what *)

Lemma run_preserves {B} (f : World -> B) (p : Op -> bool) :
  (forall o w, p o = false -> f (run_op o w) = f w) ->
  forall ops w, count_ops p ops = 0%nat -> f (run ops w) = f w.
Proof.
  intros Hop ops. induction ops as [|o ops IH]; intros w Hc; [reflexivity|].
  unfold count_ops in Hc. simpl in Hc.
  destruct (p o) eqn:Hp; [discriminate|].
  rewrite run_cons, IH by exact Hc. apply Hop. exact Hp.
Qed.

Lemma run_op_rng (o : Op) (w : World) :
  is_act o || is_step o = false -> rng (run_op o w) = rng w.
Proof.
  destruct o; simpl; try discriminate; intros _; method_cases; reflexivity.
Qed.

(** X21. Over any sequence of calls the hyper-parameters stay as they
    were constructed; epsilon is changed by [act] alone, the step
    counter by [step] alone, and the random generator is advanced by
    [act] and [step] alone. *)
Theorem nothing_else_changes (ops : list Op) (w : World) :
  hp (self (run ops w)) = hp (self w)
  /\ (count_ops is_act ops = 0%nat ->
      epsilon (self (run ops w)) = epsilon (self w))
  /\ (count_ops is_step ops = 0%nat ->
      t_step (self (run ops w)) = t_step (self w))
  /\ (count_ops (fun o => is_act o || is_step o) ops = 0%nat ->
      rng (run ops w) = rng w).
Proof.
  split; [apply run_hp|]. split; [|split].
  - apply (run_preserves (fun w => epsilon (self w)) is_act).
    intros o w'. apply run_op_epsilon.
  - apply (run_preserves (fun w => t_step (self w)) is_step).
    intros o w'. apply run_op_t_step.
  - apply (run_preserves rng (fun o => is_act o || is_step o)).
    intros o w'. apply run_op_rng.
Qed.

End AgentExtras.

(** ** The further properties on concrete inputs *)

Lemma act_without_exploration_witness :
  epsilon_enabled (hp (self (fresh greedy_params))) = false
  /\ (act [1%Q; 2%Q] (fresh greedy_params)).1 = Ok 2
  /\ (act [1%Q; 2%Q] (fresh greedy_params)).2 = fresh greedy_params.
Proof.
  destruct (act_without_exploration (fresh greedy_params) [1%Q; 2%Q] eq_refl)
    as (Hr & Hw & _).
  split; [reflexivity|]. split; [rewrite Hr; reflexivity | exact Hw].
Defined.

Lemma step_counter_counts_steps_witness :
  update_every (default_params 2 3) <> 0
  /\ t_step (self (run [a_step; ActOp [1%Q; 2%Q]; a_step; a_step]
                     (construct (default_params 2 3) ∅ : FWorld)))
     = 3.
Proof.
  assert (Hue : update_every (default_params 2 3) <> 0) by discriminate.
  split; [exact Hue|].
  rewrite (step_counter_counts_steps (default_params 2 3) ∅
             [a_step; ActOp [1%Q; 2%Q]; a_step; a_step] Hue).
  reflexivity.
Defined.

Lemma step_with_zero_update_every_witness :
  let w := fresh (tuned false 64 0 (995 # 1000)) in
  update_every (hp (self w)) = 0
  /\ (step [1%Q; 2%Q] 0 1%Q [2%Q; 1%Q] false 7 w).1 = Raise ZeroDivisionError
  /\ memory_len (memory (self (step [1%Q; 2%Q] 0 1%Q [2%Q; 1%Q] false 7 w).2))
     = 1.
Proof.
  intros w.
  destruct (step_with_zero_update_every [1%Q; 2%Q] 0 1%Q [2%Q; 1%Q] false 7 w
              eq_refl) as (Hr & Hm & _).
  split; [reflexivity|]. split; [exact Hr|]. rewrite Hm. reflexivity.
Defined.

Lemma greedy_is_first_maximum_witness :
  forward (qnet_local (self uniform_world)) (prep_state [1%Q; 2%Q]) <> []
  /\ exists k v,
       greedy (self uniform_world) [1%Q; 2%Q] = Ok k
       /\ forward (qnet_local (self uniform_world)) (prep_state [1%Q; 2%Q])
            !! Z.to_nat k = Some v.
Proof.
  assert (Hne : forward (qnet_local (self uniform_world))
                  (prep_state [1%Q; 2%Q]) <> [])
    by (vm_compute; intros H; discriminate H).
  split; [exact Hne|].
  destruct (greedy_is_first_maximum (self uniform_world) [1%Q; 2%Q] Hne)
    as (k & v & Hg & _ & Hv & _).
  exists k, v. split; assumption.
Defined.

Lemma learn_rejects_wrong_arity_witness :
  is_batch7 weighted_batch
  = negb (prioritized_memory (hp (self uniform_world)))
  /\ (learn weighted_batch uniform_world).1 = Raise ValueError
  /\ losses (self (learn weighted_batch uniform_world).2)
     = losses (self uniform_world)
  /\ qnet_local (self (learn weighted_batch uniform_world).2)
     = qnet_local (self uniform_world).
Proof.
  pose proof (learn_rejects_wrong_arity uniform_world weighted_batch eq_refl)
    as H.
  cbv zeta in H. destruct H as (Hr & Hself & _).
  split; [reflexivity|]. split; [exact Hr|].
  rewrite Hself. split; reflexivity.
Defined.

Lemma learn_calls_per_step_witness :
  update_every (hp (self uniform_world)) <> 0
  /\ count_calls is_learn
       (calls (step [1%Q; 2%Q] 0 1%Q [2%Q; 1%Q] false 7 uniform_world).2)
     = count_calls is_learn (calls uniform_world).
Proof.
  assert (Hue : update_every (hp (self uniform_world)) <> 0) by discriminate.
  split; [exact Hue|].
  destruct (learn_calls_per_step [1%Q; 2%Q] 0 1%Q [2%Q; 1%Q] false 7
              uniform_world Hue) as (_ & _ & Hfew).
  apply Hfew. vm_compute. discriminate.
Defined.

Lemma soft_update_stays_between_witness :
  (0 <= tau (hp (self moved_world)))%Q
  /\ (tau (hp (self moved_world)) <= 1)%Q
  /\ qnet_target (self moved_world) !! 0%nat = Some (1993 # 1000)
  /\ qnet_local (self moved_world) !! 0%nat = Some 3%Q
  /\ exists v,
       qnet_target (self (soft_update moved_world).2) !! 0%nat = Some v
       /\ (1993 # 1000 <= v)%Q /\ (v <= 3)%Q.
Proof.
  assert (H0 : (0 <= tau (hp (self moved_world)))%Q)
    by (vm_compute; discriminate).
  assert (H1 : (tau (hp (self moved_world)) <= 1)%Q)
    by (vm_compute; discriminate).
  assert (Ht : qnet_target (self moved_world) !! 0%nat = Some (1993 # 1000))
    by reflexivity.
  assert (Hl : qnet_local (self moved_world) !! 0%nat = Some 3%Q)
    by reflexivity.
  destruct (soft_update_stays_between moved_world 0 (1993 # 1000) 3 H0 H1 Ht Hl)
    as (v & Hv & [[Hlo Hhi]|[Hlo Hhi]]).
  - repeat (split; [assumption|]). exists v. auto.
  - repeat (split; [assumption|]). exists v. split; [exact Hv|].
    split; lra.
Defined.




Lemma recorded_loss_is_nonnegative_witness :
  let b := mkUnpacked [[1%Q; 0%Q]] [0] [5%Q] [[0%Q; 1%Q]] [1%Q] None in
  unpack (prioritized_memory (hp (self uniform_world))) terminal_batch = Ok b
  /\ well_shaped (qnet_local (self uniform_world))
       (qnet_target (self uniform_world)) b = true
  /\ exists per_sample,
       losses (self (learn terminal_batch uniform_world).2)
       = [tmean per_sample]
       /\ length per_sample = 1%nat
       /\ (0 <= tmean per_sample)%Q.
Proof.
  intros b.
  assert (Hs : well_shaped (qnet_local (self uniform_world))
                 (qnet_target (self uniform_world)) b = true)
    by (vm_compute; reflexivity).
  split; [reflexivity|]. split; [exact Hs|].
  destruct (recorded_loss_is_nonnegative uniform_world terminal_batch b
              eq_refl Hs) as (per_sample & Hl & Hlen & _ & _ & H0).
  - intros index sw H. discriminate H.
  - exists per_sample. split; [exact Hl|]. split; [exact Hlen | exact H0].
Defined.

Lemma checkpoint_restores_local_only_witness :
  let ops := [LearnOp terminal_batch; LoadModelOp "other.pt"] in
  let w2 := run ops (save_model "model.pt" uniform_world).2 in
  (save_model "model.pt" uniform_world).1 = Ok tt
  /\ Forall (fun o => is_save o = false) ops
  /\ length (qnet_local (self w2)) = length (qnet_local (self uniform_world))
  /\ qnet_local (self w2) <> qnet_local (self uniform_world)
  /\ (load_model "model.pt" w2).1 = Ok tt
  /\ qnet_local (self (load_model "model.pt" w2).2)
     = qnet_local (self uniform_world)
  /\ qnet_target (self (load_model "model.pt" w2).2) = qnet_target (self w2).
Proof.
  intros ops w2.
  assert (Hsave : (save_model "model.pt" uniform_world).1 = Ok tt)
    by reflexivity.
  assert (Hops : Forall (fun o => is_save o = false) ops)
    by (repeat constructor).
  assert (Hlen : length (qnet_local (self w2))
                 = length (qnet_local (self uniform_world)))
    by (vm_compute; reflexivity).
  pose proof (checkpoint_restores_local_only "model.pt" ops uniform_world
                Hsave Hops) as Hload.
  cbv zeta in Hload. destruct (Hload Hlen) as (Hok & Hself).
  split; [exact Hsave|]. split; [exact Hops|]. split; [exact Hlen|].
  split; [vm_compute; intros H; discriminate H|].
  split; [exact Hok|]. fold w2 in Hself.
  split; [exact (f_equal qnet_local Hself) | exact (f_equal qnet_target Hself)].
Defined.

Lemma default_beta_saturates_witness :
  prioritized_memory (hp (self prioritized_world)) = true
  /\ get_beta_default 18 prioritized_world
     = (Ok ((2 # 5) * (21 # 20) ^ 18)%Q, prioritized_world)
  /\ get_beta_default 19 prioritized_world = (Ok 1%Q, prioritized_world).
Proof.
  destruct (default_beta_saturates prioritized_world 18 eq_refl) as [Hlow _].
  destruct (default_beta_saturates prioritized_world 19 eq_refl) as [_ Hhigh].
  split; [reflexivity|]. split.
  - apply Hlow. lia.
  - apply Hhigh; [lia | vm_compute; reflexivity].
Defined.

Lemma default_beta_overflows_late_witness :
  prioritized_memory (hp (self prioritized_world)) = true
  /\ 15360 <= 20000
  /\ get_beta_default 20000 prioritized_world
     = (Raise OverflowError, prioritized_world).
Proof.
  assert (Hi : 15360 <= 20000) by lia.
  split; [reflexivity|]. split; [exact Hi|].
  exact (proj1 (default_beta_overflows_late prioritized_world 20000
                  eq_refl Hi)).
Defined.

Lemma get_beta_requires_prioritized_witness :
  prioritized_memory (hp (self uniform_world)) = false
  /\ get_beta 20000 (2 # 5) 1 (21 # 20) uniform_world
     = (Raise (TypeError "This agent is not using prioritized memory."),
        uniform_world).
Proof.
  split; [reflexivity|].
  exact (get_beta_requires_prioritized uniform_world 20000 (2 # 5) 1 (21 # 20)
           eq_refl).
Defined.
